(** * dsh: a small interactive Unix shell (main.cpp)

    A shallow embedding of the shell's driver loop, its history array, the
    recall syntax [!!] / [!n], the tokenizer [parse_input], the printer
    [print_history] and the fork/exec wrapper [execute], followed by the
    properties of the specification that were checked against them.

    Conventions of the embedding.
    - A C string is a [string]; a [char*] that may be [NULL] is an
      [option string] ([None] is the null pointer).
    - [int] values are [Z]; the arithmetic the program performs on them is
      written with its 32-bit two's complement wrap-around ([int_wrap]).
    - The arrays [history] (100 slots) and [args] (41 slots) are lists that
      are read and written by index.  An access outside the array, the use
      of a slot that was never assigned, and the dereference of a null
      pointer are undefined behaviour in the program; the embedding stops
      there with the status [Faulted].
    - The statement [input = NULL] in the failure branch of [!n] assigns to
      the array [char input[MAX_LINE]], which C++ does not allow; the
      buffer is an array and keeps the line that was read.  [recall]
      reports that branch by returning no recalled text, and the iteration
      goes on with the buffer as it is.
    - Terminal output and the calls to the operating system ([fork],
      [execvp], [wait]) are recorded as a list of [event]s, one event per
      call; what [fork], [execvp] and the successive calls of [wait] answer
      is supplied by an [os_answer].
    - [getline] is not modelled: the loop is run on the lines it delivered,
      each shorter than [MAX_LINE]. *)

From Stdlib Require Import ZArith Ascii String DecimalString DecimalZ.
From stdpp Require Import base tactics option list.

Local Open Scope string_scope.
Local Open Scope Z_scope.

(** ** Constants *)

Definition MAX_LINE : Z := 80.
Definition MAX_HISTORY : Z := 100.

(** ** Machine integers *)

Definition int_wrap (z : Z) : Z := (z + 2 ^ 31) mod 2 ^ 32 - 2 ^ 31.

Definition INT_MIN : Z := - 2 ^ 31.
Definition INT_MAX : Z := 2 ^ 31 - 1.

(** [printf("%d", z)] *)
Definition print_int (z : Z) : string := NilZero.string_of_int (Z.to_int z).

(** ** string_compare *)

(** The first loop of [string_compare] walks both strings at once and
    counts their lengths in [a] and [b]. *)
Fixpoint count_rest (s : string) (n : nat) : nat :=
  match s with
  | EmptyString => n
  | String _ t => count_rest t (S n)
  end.

Fixpoint count_both (s1 s2 : string) (a b : nat) : nat * nat :=
  match s1 with
  | EmptyString => (a, count_rest s2 b)
  | String _ t1 =>
      match s2 with
      | EmptyString => count_both t1 EmptyString (S a) b
      | String _ t2 => count_both t1 t2 (S a) (S b)
      end
  end.

(** The second loop: character by character while both strings last. *)
Fixpoint same_chars (s1 s2 : string) : bool :=
  match s1, s2 with
  | String c1 t1, String c2 t2 =>
      if Ascii.eqb c1 c2 then same_chars t1 t2 else false
  | _, _ => true
  end.

Definition string_compare (s1 s2 : string) : bool :=
  let '(a, b) := count_both s1 s2 0%nat 0%nat in
  if negb (Nat.eqb a b) then false else same_chars s1 s2.

(** ** atoi *)

Definition is_space (c : ascii) : bool :=
  let n := nat_of_ascii c in
  Nat.eqb n 32 || (Nat.leb 9 n && Nat.leb n 13).

Definition digit_of (c : ascii) : option Z :=
  let n := Z.of_nat (nat_of_ascii c) in
  if (48 <=? n) && (n <=? 57) then Some (n - 48) else None.

Fixpoint atoi_digits (s : string) (acc : Z) : Z :=
  match s with
  | String c t =>
      match digit_of c with
      | Some d => atoi_digits t (10 * acc + d)
      | None => acc
      end
  | EmptyString => acc
  end.

Definition atoi_signed (s : string) : Z :=
  match s with
  | String "-" t => - atoi_digits t 0
  | String "+" t => atoi_digits t 0
  | _ => atoi_digits s 0
  end.

Fixpoint atoi_skip (s : string) : string :=
  match s with
  | String c t => if is_space c then atoi_skip t else s
  | EmptyString => s
  end.

(** [atoi]: leading white space, an optional sign, then decimal digits up to
    the first other character.  The C library leaves the result undefined
    when the value does not fit; the embedding keeps the low 32 bits. *)
Definition atoi (s : string) : Z := int_wrap (atoi_signed (atoi_skip s)).

(** ** strtok and parse_input *)

(** [const char delimiters[] = " \n"] *)
Definition is_delimiter (c : ascii) : bool :=
  Ascii.eqb c " " || Ascii.eqb c "010".

Fixpoint skip_delimiters (s : string) : string :=
  match s with
  | String c t => if is_delimiter c then skip_delimiters t else s
  | EmptyString => s
  end.

(** The token at the head of [s] and the text after the delimiter that ends
    it (where [strtok] resumes on its next call). *)
Fixpoint take_token (s : string) : string * string :=
  match s with
  | String c t =>
      if is_delimiter c then (EmptyString, t)
      else let '(tok, rest) := take_token t in (String c tok, rest)
  | EmptyString => (EmptyString, EmptyString)
  end.

(** One call of [strtok] on the saved position: [None] is the [NULL] it
    returns when only delimiters are left. *)
Definition strtok (saved : string) : option (string * string) :=
  match skip_delimiters saved with
  | EmptyString => None
  | s => Some (take_token s)
  end.

(** ** Arrays of string pointers *)

(** A slot of [char* a[N]]: never assigned, the null pointer, or a pointer
    to a string. *)
Inductive slot : Type :=
  | Unset
  | Null
  | Text (s : string).

Definition in_bounds {A} (a : list A) (i : Z) : bool :=
  (0 <=? i) && (i <? Z.of_nat (length a)).

(** [a[i]] as an rvalue; [None] outside the array. *)
Definition load {A} (a : list A) (i : Z) : option A :=
  if in_bounds a i then a !! Z.to_nat i else None.

(** [a[i] = x]; [None] outside the array. *)
Definition store {A} (a : list A) (i : Z) (x : A) : option (list A) :=
  if in_bounds a i then Some (<[Z.to_nat i := x]> a) else None.

(** Using a slot as a C string. *)
Definition c_str (p : slot) : option string :=
  match p with
  | Text s => Some s
  | _ => None
  end.

(** The argument vector [execvp] sees: the strings up to the first null
    pointer. *)
Fixpoint argv_of (args : list slot) : option (list string) :=
  match args with
  | Text s :: rest => cons s <$> argv_of rest
  | Null :: _ => Some []
  | _ => None
  end.

(** [char* args[MAX_LINE/2 + 1]] *)
Definition ARGS_SLOTS : Z := MAX_LINE / 2 + 1.

(** The [while] loop of [parse_input]; [saved] is the position [strtok]
    keeps between calls, [k] the index into [args].  Every call of [strtok]
    consumes at least one character of [saved], which bounds the loop by
    [fuel]. *)
Fixpoint parse_rest (fuel : nat) (saved : string) (args : list slot) (k : Z)
    (shouldWait : bool) : option (list slot * bool) :=
  match fuel with
  | O => None
  | S fuel =>
      match strtok saved with
      | None =>
          args ← store args k Null;
          Some (args, shouldWait)
      | Some (tok, saved) =>
          args ← store args k (Text tok);
          if string_compare tok "&" then
            (* shouldWait = false; *args[k] = ' '; k--; then k++ *)
            args ← store args k (Text " ");
            parse_rest fuel saved args k false
          else
            parse_rest fuel saved args (k + 1) shouldWait
      end
  end.

Definition parse_input (input : string) (args : list slot) (shouldWait : bool)
    : option (list slot * bool) :=
  let copy := input in
  match strtok copy with
  | None =>
      args ← store args 0 Null;
      Some (args, shouldWait)
  | Some (tok, saved) =>
      args ← store args 0 (Text tok);
      parse_rest (S (String.length saved)) saved args 1 shouldWait
  end.

(** ** Effects *)

(** Terminal output and operating-system calls, in the order they happen. *)
Inductive event : Type :=
  | Print (s : string)
  | Fork
  | Exec (argv : list string)
  | Wait.

(** How a piece of the program ends: normally with a value, in undefined
    behaviour, by leaving the process ([exit] or [return] from [main]), by
    having its image replaced by [execvp], or not at all because it is
    still inside a call of [wait] that has not answered. *)
Inductive outcome (A : Type) : Type :=
  | Ok (a : A)
  | Faulted
  | Exited (code : Z)
  | Replaced
  | Blocked.
Arguments Ok {A} a.
Arguments Faulted {A}.
Arguments Exited {A} code.
Arguments Replaced {A}.
Arguments Blocked {A}.

(** A computation: the events it produced and how it ended. *)
Definition M (A : Type) : Type := list event * outcome A.

Definition ret {A} (a : A) : M A := ([], Ok a).

Definition bind {A B} (m : M A) (f : A -> M B) : M B :=
  match m with
  | (t, Ok a) => let '(t', r) := f a in ((t ++ t')%list, r)
  | (t, Faulted) => (t, Faulted)
  | (t, Exited c) => (t, Exited c)
  | (t, Replaced) => (t, Replaced)
  | (t, Blocked) => (t, Blocked)
  end.

Notation "x <- m ;; k" := (bind m (fun x => k))
  (at level 100, m at next level, right associativity).
Notation "m ;;; k" := (bind m (fun _ => k))
  (at level 100, right associativity).

Definition emit (e : event) : M unit := ([e], Ok tt).
Definition printf (s : string) : M unit := emit (Print s).
Definition fault {A} : M A := ([], Faulted).
Definition exit {A} (code : Z) : M A := ([], Exited code).
Definition replaced {A} : M A := ([], Replaced).
Definition blocked {A} : M A := ([], Blocked).

(** A memory access that is undefined when [o] is [None]. *)
Definition access {A} (o : option A) : M A :=
  match o with
  | Some a => ret a
  | None => fault
  end.

(** Reading the string a slot of an array points to. *)
Definition read_string (a : list slot) (i : Z) : M string :=
  access (load a i ≫= c_str).

Definition trace {A} (m : M A) : list event := fst m.
Definition result {A} (m : M A) : outcome A := snd m.

(** ** print_history *)

Definition newline : string := String "010" EmptyString.

(** [printf("%d %s\n", hc+1, history[hc])] *)
Definition history_line (number : Z) (text : string) : string :=
  print_int number ++ " " ++ text ++ newline.

(** The [for] loop of [print_history]: [count] runs from 10 down to 1. *)
Fixpoint print_history_loop (count : nat) (history : list slot) (hc : Z)
    : M unit :=
  match count with
  | O => ret tt
  | S count =>
      if hc >? -1 then
        text <- read_string history hc ;;
        printf (history_line (int_wrap (hc + 1)) text) ;;;
        print_history_loop count history (int_wrap (hc - 1))
      else ret tt
  end.

Definition print_history (history : list slot) (hc : Z) : M unit :=
  printf ("Command history:" ++ newline) ;;;
  print_history_loop 10 history hc.

(** ** execute *)

(** What the operating system answers during one call of [execute]:
    the value [fork] returns in the process under consideration, the
    value [execvp] returns there ([None] when it succeeds and so never
    returns), and the values the successive calls of [wait] return. *)
Record os_answer : Type := {
  fork_ret : Z;
  execvp_ret : option Z;
  wait_rets : list Z
}.

(** [while (wait(&status) != child) ;] : one call of [wait] per turn of the
    loop, until a call returns the child's id.  When the answers run out
    first, the process is still inside [wait]. *)
Fixpoint wait_for (child : Z) (answers : list Z) : M unit :=
  match answers with
  | [] => emit Wait ;;; blocked
  | r :: answers =>
      emit Wait ;;;
      if negb (r =? child) then wait_for child answers else ret tt
  end.

(** The C operator [!] on an [int]. *)
Definition c_not (z : Z) : Z := if z =? 0 then 1 else 0.

Definition execute (os : os_answer) (cmd : list slot) (waiting : bool)
    : M unit :=
  emit Fork ;;;
  let child := fork_ret os in
  if child <? 0 then
    printf ("Fork failed!" ++ newline ++ newline) ;;;
    exit 1
  else if child =? 0 then
    argv <- access (argv_of cmd) ;;
    emit (Exec argv) ;;;
    match execvp_ret os with
    | None => replaced
    | Some r =>
        if c_not r <? 0 then
          printf ("Error executing command!" ++ newline)
        else ret tt
    end
  else
    if waiting then wait_for child (wait_rets os) else ret tt.

(** ** main *)

(** The variables of [main] that live across iterations of its loop.  The
    buffer [input] is refilled by [getline] at the top of every iteration
    and is a local of [iteration] below. *)
Record shell : Type := {
  args : list slot;
  history : list slot;
  history_count : Z;
  should_run : Z;
  should_wait : bool;
  need_fork : bool
}.

Definition set_args (v : list slot) (st : shell) : shell :=
  {| args := v; history := history st; history_count := history_count st;
     should_run := should_run st; should_wait := should_wait st;
     need_fork := need_fork st |}.

Definition set_history (v : list slot) (st : shell) : shell :=
  {| args := args st; history := v; history_count := history_count st;
     should_run := should_run st; should_wait := should_wait st;
     need_fork := need_fork st |}.

Definition set_history_count (v : Z) (st : shell) : shell :=
  {| args := args st; history := history st; history_count := v;
     should_run := should_run st; should_wait := should_wait st;
     need_fork := need_fork st |}.

Definition set_should_run (v : Z) (st : shell) : shell :=
  {| args := args st; history := history st;
     history_count := history_count st;
     should_run := v; should_wait := should_wait st;
     need_fork := need_fork st |}.

Definition set_should_wait (v : bool) (st : shell) : shell :=
  {| args := args st; history := history st;
     history_count := history_count st;
     should_run := should_run st; should_wait := v;
     need_fork := need_fork st |}.

Definition set_need_fork (v : bool) (st : shell) : shell :=
  {| args := args st; history := history st;
     history_count := history_count st;
     should_run := should_run st; should_wait := should_wait st;
     need_fork := v |}.

(** The state when the loop is entered: both arrays are uninitialised. *)
Definition initial : shell :=
  {| args := replicate (Z.to_nat ARGS_SLOTS) Unset;
     history := replicate (Z.to_nat MAX_HISTORY) Unset;
     history_count := -1;
     should_run := 1;
     should_wait := true;
     need_fork := true |}.

Definition no_command_message (number : Z) : string :=
  "There is no command numbered " ++ print_int number
    ++ " in the history." ++ newline.

(** The index a line [!...] asks for, [after] being the text behind the
    [!]:  [int num = 0; if (input[1]) { num = atoi(&input[1]); num--; }] *)
Definition recall_index (after : string) : Z :=
  match after with
  | EmptyString => 0
  | String _ _ => int_wrap (atoi after - 1)
  end.

(** The special commands [!!] and [!n] (the first [if] / [else if] of the
    loop body).  Returns the text copied into [input] by [strcpy], or
    [input] itself when the line is no recall expression; [None] is
    returned by the failure branch of [!n], whose statement [input = NULL]
    copies nothing. *)
Definition recall (input : string) (st : shell) : M (option string * shell) :=
  if string_compare input "!!" then
    if negb (history_count st =? -1) then
      text <- read_string (history st) (history_count st) ;;
      printf (text ++ newline) ;;;
      ret (Some text, st)
    else
      printf ("No commands in history!" ++ newline) ;;;
      ret (Some input, set_need_fork false st)
  else
    match input with
    | String "!" after =>
        let num := recall_index after in
        if (num <=? history_count st) && (num >? -1) then
          text <- read_string (history st) num ;;
          printf (text ++ newline) ;;;
          ret (Some text, st)
        else
          printf (no_command_message (int_wrap (num + 1))) ;;;
          ret (None, st)
    | _ => ret (Some input, st)
    end.

(** The [history] built-in or the tokenizer (the second [if] / [else]),
    on the pointer [input] decays to; [string_compare] reads through it. *)
Definition builtin_or_parse (input : option string) (st : shell) : M shell :=
  text <- access input ;;
  if string_compare text "history" then
    if history_count st =? -1 then
      printf ("No commands in history!" ++ newline) ;;;
      ret st
    else
      print_history (history st) (history_count st) ;;;
      ret (set_need_fork false st)
  else
    parsed <- access (parse_input text (args st) (should_wait st)) ;;
    let '(a, w) := parsed in
    ret (set_should_wait w (set_args a st)).

(** Adding the command to the history array:
    [if (history_count >= MAX_HISTORY) history_count = -1;]
    [history[(++history_count % MAX_HISTORY)] = strdup(input);] *)
Definition append_history (input : option string) (st : shell) : M shell :=
  let st :=
    if history_count st >=? MAX_HISTORY then set_history_count (-1) st
    else st in
  let st := set_history_count (int_wrap (history_count st + 1)) st in
  text <- access input ;;
  h <- access (store (history st) (Z.rem (history_count st) MAX_HISTORY)
                 (Text text)) ;;
  ret (set_history h st).

(** One pass through the body of [while (should_run)]; [line] is what
    [getline] stored in [input]. *)
Definition iteration (os : os_answer) (line : string) (st : shell) : M shell :=
  printf "dsh>" ;;;
  if Nat.eqb (String.length line) 0 then ret st
  else if string_compare line "exit" then ret (set_should_run 0 st)
  else
    let st := set_should_wait true (set_need_fork true st) in
    recalled <- recall line st ;;
    let '(copied, st) := recalled in
    (* the buffer: the recalled text if one was copied, else the line read *)
    let input := Some (default line copied) in
    st <- builtin_or_parse input st ;;
    st <- append_history input st ;;
    if need_fork st then
      execute os (args st) (should_wait st) ;;;
      ret st
    else ret st.

(** The loop of [main] on the lines typed so far, each with the answers of
    the operating system for that iteration.  [main] returns 0 once
    [should_run] is 0; when the lines run out the shell sits at its
    prompt in the state returned. *)
Fixpoint main_loop (inputs : list (string * os_answer)) (st : shell)
    : M shell :=
  if should_run st =? 0 then exit 0
  else
    match inputs with
    | [] => ret st
    | (line, os) :: inputs =>
        st <- iteration os line st ;;
        main_loop inputs st
    end.

Definition main (inputs : list (string * os_answer)) : M shell :=
  main_loop inputs initial.

(** ** Vocabulary of the statements *)

(** [n] indices counting down from [from]. *)
Fixpoint descending (from : Z) (n : nat) : list Z :=
  match n with
  | O => []
  | S n => from :: descending (from - 1) n
  end.

(** The line [print_history] prints for index [i] when [entry i] is the text
    stored there. *)
Definition listed (entry : Z -> string) (i : Z) : event :=
  Print (history_line (i + 1) (entry i)).

(** The answers seen by the shell itself when a command runs normally:
    [fork] returns the child's process id, and the first [wait] returns it
    too. *)
Definition in_parent : os_answer :=
  {| fork_ret := 1; execvp_ret := None; wait_rets := [1] |}.

(** The state the shell is in after the given lines, [initial] if it did
    not get that far. *)
Definition state_after (lines : list string) : shell :=
  match result (main ((fun l => (l, in_parent)) <$> lines)) with
  | Ok st => st
  | _ => initial
  end.

(** A recall expression fails: the failure branch is taken and nothing is
    copied into [input]. *)
Definition recall_fails (line : string) (st : shell) : Prop :=
  exists t st', recall line st = (t, Ok (None, st')).

(** A process is spawned: [fork] is called. *)
Definition spawns {A} (m : M A) : Prop := In Fork (trace m).

(** Successive appends to the history array. *)
Fixpoint append_all (lines : list string) (st : shell) : M shell :=
  match lines with
  | [] => ret st
  | line :: lines =>
      st <- append_history (Some line) st ;;
      append_all lines st
  end.

(** What the tokenizer hands to [execute] for a line, starting from the
    uninitialised [args] and the default [should_wait = true] of an
    iteration: the argument vector up to its null terminator, and the
    wait flag. *)
Definition tokenize (line : string) : option (list string * bool) :=
  parsed ← parse_input line (args initial) true;
  argv ← argv_of parsed.1;
  Some (argv, parsed.2).

(** The answers seen by a child in which [execvp] fails and returns [r]. *)
Definition in_child_exec_failed (r : Z) : os_answer :=
  {| fork_ret := 0; execvp_ret := Some r; wait_rets := [] |}.

(** The shape every state of the loop has: both arrays keep their size,
    the latest-index counter stays between -1 and 100, and every slot of
    the array up to the counter holds a recorded line. *)
Definition well_formed (st : shell) : Prop :=
  length (args st) = Z.to_nat ARGS_SLOTS
  /\ length (history st) = Z.to_nat MAX_HISTORY
  /\ -1 <= history_count st <= MAX_HISTORY
  /\ forall i, 0 <= i <= history_count st -> i < MAX_HISTORY ->
       exists text, load (history st) i = Some (Text text).

(** Two states with the same history array and counter. *)
Definition same_history (st st' : shell) : Prop :=
  history st' = history st /\ history_count st' = history_count st.

(** The tokens of a line: what successive calls of [strtok] return. *)
Fixpoint tokens_fuel (fuel : nat) (s : string) : list string :=
  match fuel with
  | O => []
  | S fuel =>
      match strtok s with
      | None => []
      | Some (tok, rest) => tok :: tokens_fuel fuel rest
      end
  end.

Definition tokens (s : string) : list string :=
  tokens_fuel (S (String.length s)) s.

(** A token other than the background marker. *)
Definition not_marker (tok : string) : bool := negb (string_compare tok "&").

(** The text recorded in slot [i] of the history array. *)
Definition slot_text (st : shell) (i : Z) : string :=
  default "" (load (history st) i ≫= c_str).

(** A line the loop treats as an external command: not blank, short enough
    for the buffer of [getline], not [exit], not [history], and not starting
    with [!]. *)
Definition starts_with_bang (line : string) : bool :=
  match line with
  | String "!" _ => true
  | _ => false
  end.

Definition ordinary (line : string) : bool :=
  negb (Nat.eqb (String.length line) 0)
  && (Z.of_nat (String.length line) <? MAX_LINE)
  && negb (String.eqb line "exit")
  && negb (String.eqb line "history")
  && negb (starts_with_bang line).

(** The value of the latest-index counter after one more append. *)
Definition next_count (hc : Z) : Z :=
  if hc >=? MAX_HISTORY then 0 else hc + 1.

(** The argument vector and the wait flag a line stands for: the first
    token and the later tokens other than [&]; wait unless a later token
    is [&]. *)
Definition argv_for (line : string) : list string :=
  (take 1 (tokens line) ++ List.filter not_marker (tail (tokens line)))%list.

Definition waits_for (line : string) : bool :=
  forallb not_marker (tail (tokens line)).

(** An input line on which the user only pressed enter. *)
Definition blank (input : string * os_answer) : bool :=
  Nat.eqb (String.length input.1) 0.

(** A line made of delimiters only. *)
Fixpoint only_delimiters (s : string) : bool :=
  match s with
  | EmptyString => true
  | String c t => is_delimiter c && only_delimiters t
  end.

(** * Properties *)

(** ** string_compare decides equality *)

Lemma count_rest_length (s : string) (n : nat) :
  count_rest s n = (n + String.length s)%nat.
Proof.
  revert n. induction s as [|c s IH]; intros n; simpl.
  - lia.
  - rewrite IH. lia.
Qed.

Lemma count_both_length (s1 s2 : string) (a b : nat) :
  count_both s1 s2 a b = ((a + String.length s1)%nat, (b + String.length s2)%nat).
Proof.
  revert s2 a b. induction s1 as [|c1 s1 IH]; intros s2 a b; simpl.
  - rewrite count_rest_length. f_equal. lia.
  - destruct s2 as [|c2 s2]; rewrite IH; simpl; f_equal; lia.
Qed.

Lemma same_chars_eq (s1 s2 : string) :
  String.length s1 = String.length s2 ->
  same_chars s1 s2 = true <-> s1 = s2.
Proof.
  revert s2. induction s1 as [|c1 s1 IH]; intros [|c2 s2] Hlen;
    simpl in *; try discriminate.
  - tauto.
  - destruct (Ascii.eqb_spec c1 c2) as [->|Hne].
    + rewrite IH by congruence. split; congruence.
    + split; [discriminate | congruence].
Qed.

Lemma string_compare_true (s1 s2 : string) :
  string_compare s1 s2 = true <-> s1 = s2.
Proof.
  unfold string_compare. rewrite count_both_length. simpl.
  destruct (Nat.eqb_spec (String.length s1) (String.length s2)) as [Hlen|Hlen];
    simpl.
  - by apply same_chars_eq.
  - split; [discriminate | intros ->; contradiction].
Qed.

Lemma string_compare_refl (s : string) : string_compare s s = true.
Proof. by apply string_compare_true. Qed.

Lemma string_compare_false (s1 s2 : string) :
  s1 <> s2 -> string_compare s1 s2 = false.
Proof.
  intros Hne. destruct (string_compare s1 s2) eqn:E; [|done].
  by apply string_compare_true in E.
Qed.

(** ** Machine integers in range *)

Lemma int_wrap_id (z : Z) : INT_MIN <= z <= INT_MAX -> int_wrap z = z.
Proof.
  unfold int_wrap, INT_MIN, INT_MAX. intros H.
  rewrite Z.mod_small; lia.
Qed.

(** ** Array accesses *)

Lemma in_bounds_true {A} (a : list A) (i : Z) :
  in_bounds a i = true <-> 0 <= i < Z.of_nat (length a).
Proof. unfold in_bounds. rewrite andb_true_iff, Z.leb_le, Z.ltb_lt. tauto. Qed.

Lemma load_store_same {A} (a a' : list A) (i : Z) (x : A) :
  store a i x = Some a' -> load a' i = Some x.
Proof.
  unfold store, load. destruct (in_bounds a i) eqn:E; [|discriminate].
  intros [= <-]. apply in_bounds_true in E.
  assert (in_bounds (<[Z.to_nat i:=x]> a) i = true) as ->.
  { apply in_bounds_true. rewrite length_insert. lia. }
  apply list_lookup_insert_eq. lia.
Qed.

Lemma store_length {A} (a a' : list A) (i : Z) (x : A) :
  store a i x = Some a' -> length a' = length a.
Proof.
  unfold store. destruct (in_bounds a i); [|discriminate].
  intros [= <-]. apply length_insert.
Qed.

Lemma store_in_bounds {A} (a : list A) (i : Z) (x : A) :
  0 <= i < Z.of_nat (length a) -> store a i x = Some (<[Z.to_nat i:=x]> a).
Proof.
  intros H. unfold store. by apply in_bounds_true in H as ->.
Qed.

Lemma load_out_of_bounds {A} (a : list A) (i : Z) :
  Z.of_nat (length a) <= i -> load a i = None.
Proof.
  intros H. unfold load, in_bounds.
  destruct (Z.ltb_spec i (Z.of_nat (length a))); [lia|].
  by rewrite andb_false_r.
Qed.

(** ** print_history *)

Lemma descending_length (from : Z) (n : nat) : length (descending from n) = n.
Proof. revert from. induction n; intros; simpl; auto. Qed.

Section PrintHistory.
Variable history : list slot.
Variable entry : Z -> string.
Variable latest : Z.
Hypothesis latest_small : latest < MAX_HISTORY.
Hypothesis entries :
  forall i, 0 <= i <= latest -> load history i = Some (Text (entry i)).

Lemma print_history_loop_lines (count : nat) (hc : Z) :
  -1 <= hc <= latest ->
  print_history_loop count history hc =
    (listed entry <$> descending hc (Nat.min count (Z.to_nat (hc + 1))),
     Ok tt).
Proof using latest_small entries.
  revert hc. induction count as [|count IH]; intros hc Hhc; [done|].
  cbn [print_history_loop].
  destruct (Z.gtb_spec hc (-1)) as [Hpos|Hneg].
  - unfold read_string. rewrite entries by lia. cbn.
    unfold MAX_HISTORY in latest_small.
    rewrite !int_wrap_id by (unfold INT_MIN, INT_MAX; lia).
    rewrite IH by lia. cbn.
    replace (Z.to_nat (hc + 1)) with (S (Z.to_nat (hc - 1 + 1))) by lia.
    done.
  - replace hc with (-1) by lia. by rewrite Nat.min_0_r.
Qed.
End PrintHistory.

Lemma print_history_recent_first_lines
    (history : list slot) (entry : Z -> string) (L : Z) :
  0 <= L < MAX_HISTORY ->
  (forall i, 0 <= i <= L -> load history i = Some (Text (entry i))) ->
  print_history history L =
    (Print ("Command history:" ++ newline)
       :: (listed entry <$> descending L (Z.to_nat (Z.min 10 (L + 1)))),
     Ok tt).
Proof.
  intros HL Hentries. unfold print_history.
  rewrite (print_history_loop_lines history entry L) by (auto; lia).
  replace (Nat.min 10 (Z.to_nat (L + 1)))
    with (Z.to_nat (Z.min 10 (L + 1))) by lia.
  reflexivity.
Qed.

(** C9. With N >= 1 entries in slots 0 .. N-1 of the history array and
    latest index L = N-1 inside the array, [print_history] prints the header
    "Command history:" and then exactly min(10, N) lines, for the indices
    L, L-1, ... in descending order and stopping at index 0, each line being
    "<index+1> <text>". *)
Theorem print_history_recent_first
    (history : list slot) (entry : Z -> string) (L : Z) :
  0 <= L < MAX_HISTORY ->
  (forall i, 0 <= i <= L -> load history i = Some (Text (entry i))) ->
  let n := Z.to_nat (Z.min 10 (L + 1)) in
  print_history history L =
    (Print ("Command history:" ++ newline)
       :: ((fun i => Print (print_int (i + 1) ++ " " ++ entry i ++ newline))
             <$> descending L n),
     Ok tt)
  /\ length (descending L n) = n
  /\ (forall i, In i (descending L n) -> 0 <= i <= L).
Proof.
  intros HL Hentries n. split; [|split].
  - by apply print_history_recent_first_lines.
  - apply descending_length.
  - subst n. intros i.
    assert (forall k from, In i (descending from k) ->
              from - Z.of_nat k < i <= from) as Hrange.
    { induction k as [|k IH]; intros from; simpl; [tauto|].
      intros [<-|Hin]; [lia|]. apply IH in Hin. lia. }
    intros Hin. apply Hrange in Hin. lia.
Qed.

Lemma print_history_recent_first_witness :
  print_history (history (state_after ["ls"; "pwd"; "date"])) 2 =
    ([Print ("Command history:" ++ newline);
      Print ("3 date" ++ newline);
      Print ("2 pwd" ++ newline);
      Print ("1 ls" ++ newline)], Ok tt).
Proof.
  pose proof (print_history_recent_first
                (history (state_after ["ls"; "pwd"; "date"]))
                (fun i => if i =? 0 then "ls" else if i =? 1 then "pwd"
                          else "date") 2) as H.
  destruct H as [H _].
  - unfold MAX_HISTORY. lia.
  - intros i Hi.
    assert (i = 0 \/ i = 1 \/ i = 2) as [->|[->| ->]] by lia; reflexivity.
  - exact H.
Defined.

(** ** Appending to the history array *)

Lemma append_history_step (line : string) (st : shell) :
  length (history st) = Z.to_nat MAX_HISTORY ->
  -1 <= history_count st < MAX_HISTORY ->
  append_history (Some line) st =
    ([], Ok (set_history
               (<[Z.to_nat ((history_count st + 1) mod 100) := Text line]>
                  (history st))
               (set_history_count (history_count st + 1) st))).
Proof.
  unfold MAX_HISTORY. intros Hlen Hhc. unfold append_history.
  destruct (Z.geb_spec (history_count st) MAX_HISTORY) as [Hge|_];
    [unfold MAX_HISTORY in Hge; lia|].
  cbn [history_count set_history_count history access bind ret].
  rewrite int_wrap_id by (unfold INT_MIN, INT_MAX; lia).
  unfold MAX_HISTORY. rewrite store_in_bounds.
  - cbn. do 3 f_equal.
    rewrite Z.rem_mod_nonneg by lia. reflexivity.
  - rewrite Hlen. pose proof (Z.rem_bound_pos (history_count st + 1) 100).
    lia.
Qed.

Lemma append_all_snoc (lines : list string) (line : string) (st : shell) :
  append_all (lines ++ [line]) st =
    (st' <- append_all lines st ;; append_history (Some line) st').
Proof.
  revert st. induction lines as [|l lines IH]; intros st; simpl.
  - destruct (append_history (Some line) st) as [t [a| | | |]]; simpl;
      rewrite ?app_nil_r; reflexivity.
  - destruct (append_history (Some l) st) as [t [a| | | |]]; simpl; try done.
    rewrite IH.
    destruct (append_all lines a) as [t1 [a1| | | |]]; simpl; try done.
    destruct (append_history (Some line) a1) as [t2 [a2| | | |]]; simpl;
      by rewrite ?app_assoc.
Qed.

(** While the array is not full, the appended lines fill its slots in
    order and [history_count] is the index of the latest one. *)
Lemma append_all_fills (lines : list string) :
  (length lines <= Z.to_nat MAX_HISTORY)%nat ->
  exists st,
    append_all lines initial = ([], Ok st)
    /\ history_count st = Z.of_nat (length lines) - 1
    /\ history st =
         ((Text <$> lines)
            ++ replicate (Z.to_nat MAX_HISTORY - length lines) Unset)%list.
Proof.
  induction lines as [|line lines IH] using rev_ind; intros Hlen.
  - exists initial. repeat split; reflexivity.
  - rewrite length_app in Hlen. simpl in Hlen.
    destruct IH as (st & Hrun & Hhc & Hhist); [lia|].
    rewrite append_all_snoc, Hrun.
    unfold MAX_HISTORY in *.
    assert (length (history st) = Z.to_nat 100) as Hsize.
    { rewrite Hhist, length_app, length_fmap, length_replicate. lia. }
    cbn [bind]. rewrite append_history_step by (unfold MAX_HISTORY; lia).
    eexists. split; [reflexivity|]. cbn. split.
    + rewrite length_app. simpl. lia.
    + rewrite Hhc, Hhist.
      replace (Z.of_nat (length lines) - 1 + 1) with (Z.of_nat (length lines))
        by lia.
      rewrite Z.mod_small, Nat2Z.id by lia.
      rewrite insert_app_r_alt by (rewrite length_fmap; lia).
      rewrite length_fmap, Nat.sub_diag, length_app. simpl.
      replace (Z.to_nat 100 - length lines)%nat
        with (S (Z.to_nat 100 - (length lines + 1)))%nat by lia.
      simpl. rewrite fmap_app, <- app_assoc. reflexivity.
Qed.

(** ** atoi reads back what [%d] prints *)

Lemma atoi_digits_acc (d : Decimal.uint) (p : positive) :
  atoi_digits (NilEmpty.string_of_uint d) (Z.pos p) =
    Z.pos (Pos.of_uint_acc d p).
Proof.
  revert p. induction d; intros p; cbn [NilEmpty.string_of_uint];
    [reflexivity|..];
    (cbn [atoi_digits];
     match goal with
     | |- context [digit_of ?c] =>
         let v := eval vm_compute in (digit_of c) in
         change (digit_of c) with v
     end;
     cbv iota; cbn [Pos.of_uint_acc];
     match goal with
     | |- atoi_digits _ ?z = _ =>
         match goal with
         | |- _ = Z.pos (Pos.of_uint_acc _ ?q) =>
             replace z with (Z.pos q) by lia
         end
     end;
     apply IHd).
Qed.

Lemma atoi_digits_uint (d : Decimal.uint) :
  atoi_digits (NilEmpty.string_of_uint d) 0 = Z.of_N (Pos.of_uint d).
Proof.
  induction d; cbn [NilEmpty.string_of_uint]; [reflexivity|..];
    cbn [atoi_digits];
    match goal with
    | |- context [digit_of ?c] =>
        let v := eval vm_compute in (digit_of c) in
        change (digit_of c) with v
    end;
    cbv iota; cbn [Pos.of_uint];
    first [exact IHd | apply atoi_digits_acc].
Qed.

Lemma atoi_signed_int (i : Decimal.int) :
  atoi_signed (atoi_skip (NilZero.string_of_int i)) = Z.of_int i.
Proof.
  destruct i as [d|d]; cbn [NilZero.string_of_int Z.of_int].
  - unfold NilZero.string_of_uint, Z.of_uint.
    rewrite <- atoi_digits_uint. by destruct d.
  - change (atoi_skip (String "-" (NilZero.string_of_uint d)))
      with (String "-" (NilZero.string_of_uint d)).
    cbn [atoi_signed]. unfold NilZero.string_of_uint, Z.of_uint.
    rewrite <- atoi_digits_uint. by destruct d.
Qed.

Lemma atoi_print_int (n : Z) :
  INT_MIN <= n <= INT_MAX -> atoi (print_int n) = n.
Proof.
  intros Hn. unfold atoi, print_int.
  rewrite atoi_signed_int, DecimalZ.of_to. by apply int_wrap_id.
Qed.

Lemma print_int_head (n : Z) :
  exists c t, print_int n = String c t /\ c <> "!"%char.
Proof.
  unfold print_int. destruct (Z.to_int n) as [d|d]; simpl.
  - destruct d; simpl; eexists _, _; (split; [reflexivity|discriminate]).
  - eexists _, _; (split; [reflexivity|discriminate]).
Qed.

Lemma recall_index_print_int (n : Z) :
  INT_MIN < n <= INT_MAX -> recall_index (print_int n) = n - 1.
Proof.
  intros Hn. destruct (print_int_head n) as (c & t & Hprint & _).
  unfold recall_index. rewrite Hprint. cbv iota.
  rewrite <- Hprint, atoi_print_int by lia.
  apply int_wrap_id. unfold INT_MIN, INT_MAX in *. lia.
Qed.

(** ** The recall expressions *)

Lemma recall_index_found (after : string) (st : shell) (text : string) :
  after <> "!" ->
  -1 < recall_index after <= history_count st ->
  load (history st) (recall_index after) = Some (Text text) ->
  recall (String "!" after) st =
    ([Print (text ++ newline)], Ok (Some text, st)).
Proof.
  intros Hafter Hnum Hload. unfold recall.
  rewrite string_compare_false by congruence.
  destruct (Z.leb_spec (recall_index after) (history_count st)); [|lia].
  destruct (Z.gtb_spec (recall_index after) (-1)); [|lia].
  cbn [andb]. unfold read_string. rewrite Hload. reflexivity.
Qed.

Lemma recall_index_missing (after : string) (st : shell) :
  after <> "!" ->
  ~ (-1 < recall_index after <= history_count st) ->
  recall (String "!" after) st =
    ([Print (no_command_message (int_wrap (recall_index after + 1)))],
     Ok (None, st)).
Proof.
  intros Hafter Hnum. unfold recall.
  rewrite string_compare_false by congruence.
  destruct (Z.leb_spec (recall_index after) (history_count st));
    destruct (Z.gtb_spec (recall_index after) (-1)); try lia; reflexivity.
Qed.

(** ** The append after the array is full *)

(** C1. When the array holds exactly 100 entries (after any 100 appends), the
    next append does store the new line in slot 0, but it does not reset the
    numbering: [history_count] becomes 100, so the new entry is number 101,
    and [!100] still resolves to the 100th line. *)
Theorem append_after_capacity_keeps_counting
    (lines : list string) (line : string) :
  length lines = Z.to_nat MAX_HISTORY ->
  exists st,
    append_all (lines ++ [line]) initial = ([], Ok st)
    /\ load (history st) 0 = Some (Text line)
    /\ history_count st = MAX_HISTORY
    /\ forall text, lines !! 99%nat = Some text ->
         recall "!100" st = ([Print (text ++ newline)], Ok (Some text, st)).
Proof.
  intros Hlen.
  destruct (append_all_fills lines) as (st0 & Hrun & Hhc & Hhist); [lia|].
  rewrite Hlen, Nat.sub_diag, app_nil_r in Hhist.
  assert (length (history st0) = Z.to_nat MAX_HISTORY) as Hsize
    by (by rewrite Hhist, length_fmap).
  rewrite append_all_snoc, Hrun. cbn [bind].
  rewrite append_history_step by (unfold MAX_HISTORY in *; lia).
  eexists. split; [reflexivity|].
  unfold MAX_HISTORY in *. rewrite Hhc, Hlen.
  cbn [history history_count set_history set_history_count].
  change (Z.to_nat ((Z.of_nat (Z.to_nat 100) - 1 + 1) mod 100)) with 0%nat.
  change (Z.of_nat (Z.to_nat 100) - 1 + 1) with 100.
  split; [|split; [reflexivity|]].
  - unfold load.
    assert (in_bounds (<[0%nat:=Text line]> (history st0)) 0 = true) as ->.
    { apply in_bounds_true. rewrite length_insert. lia. }
    apply list_lookup_insert_eq. lia.
  - intros text Htext. apply recall_index_found.
    + discriminate.
    + change (recall_index "100") with 99. simpl. lia.
    + change (recall_index "100") with 99. simpl. unfold load.
      match goal with |- (if ?b then _ else _) = _ =>
        assert (b = true) as -> end.
      { apply in_bounds_true. rewrite length_insert. lia. }
      rewrite list_lookup_insert_ne by discriminate.
      rewrite Hhist, list_lookup_fmap.
      change (Z.to_nat 99) with 99%nat. by rewrite Htext.
Qed.

Lemma append_after_capacity_keeps_counting_witness :
  exists st,
    append_all (replicate 100 "ls" ++ ["pwd"]) initial = ([], Ok st)
    /\ load (history st) 0 = Some (Text "pwd")
    /\ history_count st = 100
    /\ recall "!100" st = ([Print ("ls" ++ newline)], Ok (Some "ls", st)).
Proof.
  destruct (append_after_capacity_keeps_counting (replicate 100 "ls") "pwd")
    as (st & Hrun & Hslot & Hhc & Hrecall); [reflexivity|].
  exists st. repeat split; auto.
Defined.

(** The counter is reset by the append after that one. *)
Example reset_is_one_append_late :
  history_count (state_after (replicate 100 "ls")) = 99
  /\ history_count (state_after (replicate 101 "ls")) = 100
  /\ history_count (state_after (replicate 102 "ls")) = 0.
Proof. repeat split; vm_compute; reflexivity. Qed.

(** ** Failed recalls *)


(** C2. For a line [!n] whose number is not in the history ([n-1] above the
    latest index or below 0), the shell prints "There is no command numbered
    n in the history." but leaves [need_fork] set: the failure branch never
    clears the flag that the iteration has just set. *)
Theorem failed_recall_leaves_need_fork_set (n : Z) (st : shell) :
  INT_MIN < n <= INT_MAX ->
  ~ (0 <= n - 1 <= history_count st) ->
  let line := String "!" (print_int n) in
  let st0 := set_should_wait true (set_need_fork true st) in
  let message := no_command_message n in
  recall line st0 = ([Print message], Ok (None, st0))
  /\ need_fork st0 = true.
Proof.
  intros Hn Hmissing line st0 message. split; [|reflexivity].
  subst line message. destruct (print_int_head n) as (c & t & Hprint & Hc).
  rewrite recall_index_missing.
  - rewrite recall_index_print_int by done.
    replace (n - 1 + 1) with n by lia.
    rewrite int_wrap_id by (unfold INT_MIN, INT_MAX in *; lia). done.
  - rewrite Hprint. congruence.
  - rewrite recall_index_print_int by done. simpl. lia.
Qed.

Lemma failed_recall_leaves_need_fork_set_witness :
  let st := state_after ["ls"; "pwd"] in
  let st0 := set_should_wait true (set_need_fork true st) in
  let message := "There is no command numbered 3 in the history." ++ newline in
  history_count st = 1
  /\ recall "!3" st0 = ([Print message], Ok (None, st0))
  /\ need_fork st0 = true.
Proof.
  split; [reflexivity|].
  apply (failed_recall_leaves_need_fork_set 3 (state_after ["ls"; "pwd"])).
  - unfold INT_MIN, INT_MAX. lia.
  - vm_compute. intros [_ H]. apply H. reflexivity.
Defined.

(** ** A bare [!] *)

(** C8 as stated fails: with one entry in the history, a bare [!] does not
    fail. *)
Lemma bare_bang_can_succeed : ~ recall_fails "!" (state_after ["ls"]).
Proof.
  intros (t & st' & H). vm_compute in H. discriminate H.
Qed.

(** C8, amended. A bare [!] is read as array index 0, that is command number
    1: it recalls the first entry whenever the history is not empty, and
    fails, with the message for number 1, only on an empty history. *)
Theorem bare_bang_recalls_first_entry (st : shell) :
  (forall text,
     0 <= history_count st ->
     load (history st) 0 = Some (Text text) ->
     recall "!" st = ([Print (text ++ newline)], Ok (Some text, st)))
  /\ (history_count st < 0 ->
      recall "!" st = ([Print (no_command_message 1)], Ok (None, st))).
Proof.
  split.
  - intros text Hhc Hload. apply recall_index_found; simpl; [discriminate|lia|done].
  - intros Hhc. apply (recall_index_missing "" st); simpl; [discriminate|lia].
Qed.

Lemma bare_bang_recalls_first_entry_witness :
  recall "!" (state_after ["ls"; "pwd"]) =
    ([Print ("ls" ++ newline)], Ok (Some "ls", state_after ["ls"; "pwd"]))
  /\ recall "!" initial =
       ([Print ("There is no command numbered 1 in the history." ++ newline)],
        Ok (None, initial)).
Proof.
  split.
  - apply (proj1 (bare_bang_recalls_first_entry (state_after ["ls"; "pwd"]))).
    + vm_compute. discriminate.
    + reflexivity.
  - apply (proj2 (bare_bang_recalls_first_entry initial)). reflexivity.
Defined.

(** ** [!!] on an empty history *)

(** C3 as stated fails: the iteration that reads [!!] on an empty history
    does change the history. *)
Lemma bang_bang_on_empty_history_mutates :
  ~ (forall st',
       result (iteration in_parent "!!" initial) = Ok st' ->
       history st' = history initial
       /\ history_count st' = history_count initial).
Proof.
  intros H.
  destruct (H (state_after ["!!"])) as [_ Hcount]; [reflexivity|].
  vm_compute in Hcount. discriminate Hcount.
Qed.

Lemma parse_single_token (a : list slot) (w : bool) :
  length a = Z.to_nat ARGS_SLOTS ->
  parse_input "!!" a w =
    Some (<[1%nat:=Null]> (<[0%nat:=Text "!!"]> a), w).
Proof.
  intros Hlen. change (Z.to_nat ARGS_SLOTS) with 41%nat in Hlen.
  unfold parse_input.
  change (strtok "!!") with (Some ("!!", "")). cbv beta iota.
  rewrite store_in_bounds by lia. cbn [mbind option_bind].
  cbn [parse_rest String.length].
  change (strtok "") with (@None (string * string)). cbv beta iota.
  rewrite store_in_bounds by (rewrite length_insert; lia).
  reflexivity.
Qed.

Lemma recall_latest_empty (st : shell) :
  history_count st = -1 ->
  recall "!!" st =
    ([Print ("No commands in history!" ++ newline)],
     Ok (Some "!!", set_need_fork false st)).
Proof.
  intros Hhc. unfold recall.
  change (string_compare "!!" "!!") with true. cbv iota.
  rewrite Hhc. reflexivity.
Qed.

Lemma parse_bang_bang (st : shell) :
  length (args st) = Z.to_nat ARGS_SLOTS ->
  builtin_or_parse (Some "!!") st =
    ([], Ok (set_should_wait (should_wait st)
               (set_args (<[1%nat:=Null]> (<[0%nat:=Text "!!"]> (args st)))
                  st))).
Proof.
  intros Hargs. unfold builtin_or_parse. cbn [access bind ret].
  change (string_compare "!!" "history") with false. cbv iota.
  rewrite parse_single_token by done. reflexivity.
Qed.

(** Running the steps of an iteration whose results are known. *)
Ltac run_known := cbn [bind ret printf emit app fst snd].

(** C3, amended. For the line [!!] on an empty history the shell prints
    "No commands in history!" and spawns no process, and the line itself is
    appended to the history: slot 0 receives the text [!!] and the latest
    index goes from -1 to 0. *)
Theorem bang_bang_on_empty_history (os : os_answer) (st : shell) :
  history_count st = -1 ->
  length (history st) = Z.to_nat MAX_HISTORY ->
  length (args st) = Z.to_nat ARGS_SLOTS ->
  iteration os "!!" st =
    ([Print "dsh>"; Print ("No commands in history!" ++ newline)],
     Ok {| args := <[1%nat:=Null]> (<[0%nat:=Text "!!"]> (args st));
           history := <[0%nat:=Text "!!"]> (history st);
           history_count := 0;
           should_run := should_run st;
           should_wait := true;
           need_fork := false |})
  /\ ~ spawns (iteration os "!!" st).
Proof.
  intros Hhc Hhist Hargs.
  assert (iteration os "!!" st =
    ([Print "dsh>"; Print ("No commands in history!" ++ newline)],
     Ok {| args := <[1%nat:=Null]> (<[0%nat:=Text "!!"]> (args st));
           history := <[0%nat:=Text "!!"]> (history st);
           history_count := 0;
           should_run := should_run st;
           should_wait := true;
           need_fork := false |})) as Hrun.
  { unfold iteration. cbn [String.length Nat.eqb].
    change (string_compare "!!" "exit") with false. cbv iota.
    run_known. rewrite recall_latest_empty by done.
    run_known. rewrite parse_bang_bang by done.
    run_known.
    rewrite append_history_step
      by (cbn; first [exact Hhist | rewrite Hhc; unfold MAX_HISTORY; lia]).
    run_known. cbn. rewrite Hhc. reflexivity. }
  split; [exact Hrun|].
  unfold spawns. rewrite Hrun. cbn. intros [H|[H|[]]]; discriminate H.
Qed.

Lemma bang_bang_on_empty_history_witness :
  exists st,
    iteration in_parent "!!" initial =
      ([Print "dsh>"; Print ("No commands in history!" ++ newline)], Ok st)
    /\ load (history st) 0 = Some (Text "!!")
    /\ history_count st = 0
    /\ ~ spawns (iteration in_parent "!!" initial).
Proof.
  destruct (bang_bang_on_empty_history in_parent initial) as [Hrun Hspawn];
    [reflexivity..|].
  eexists. split; [exact Hrun|]. repeat split; [reflexivity..|exact Hspawn].
Defined.

(** ** The [history] built-in *)

Lemma execute_forks (os : os_answer) (cmd : list slot) (waiting : bool) :
  exists rest r, execute os cmd waiting = (Fork :: rest, r).
Proof.
  unfold execute. cbn [bind emit].
  match goal with |- context [let '(t', r) := ?body in _] =>
    destruct body as [t' r] end.
  eauto.
Qed.

Lemma recall_passes_history (st : shell) :
  recall "history" st = ([], Ok (Some "history", st)).
Proof. reflexivity. Qed.

Lemma history_builtin_empty (st : shell) :
  history_count st = -1 ->
  builtin_or_parse (Some "history") st =
    ([Print ("No commands in history!" ++ newline)], Ok st).
Proof.
  intros Hhc. unfold builtin_or_parse. cbn [access bind ret].
  change (string_compare "history" "history") with true. cbv iota.
  rewrite Hhc. reflexivity.
Qed.

(** C6. On an empty history the line [history] prints "No commands in
    history!" and leaves [need_fork] set, so the iteration goes on to call
    [execute]: a process is forked. *)
Theorem history_on_empty_store_spawns (os : os_answer) (st : shell) :
  history_count st = -1 ->
  length (history st) = Z.to_nat MAX_HISTORY ->
  let st0 := set_should_wait true (set_need_fork true st) in
  builtin_or_parse (Some "history") st0 =
    ([Print ("No commands in history!" ++ newline)], Ok st0)
  /\ need_fork st0 = true
  /\ spawns (iteration os "history" st).
Proof.
  intros Hhc Hhist st0.
  split; [by apply history_builtin_empty|]. split; [reflexivity|].
  unfold spawns, iteration. cbn [String.length Nat.eqb].
  change (string_compare "history" "exit") with false. cbv iota.
  fold st0. run_known. rewrite recall_passes_history.
  run_known. rewrite history_builtin_empty by done.
  run_known.
  rewrite append_history_step
    by (cbn; first [exact Hhist | rewrite Hhc; unfold MAX_HISTORY; lia]).
  run_known. cbn [need_fork set_history set_history_count st0 set_should_wait
                  set_need_fork].
  match goal with |- context [execute ?o ?c ?w] =>
    destruct (execute_forks o c w) as (rest & r & ->) end.
  destruct r; cbn; auto.
Qed.

Lemma history_on_empty_store_spawns_witness :
  builtin_or_parse (Some "history") initial =
    ([Print ("No commands in history!" ++ newline)], Ok initial)
  /\ need_fork initial = true
  /\ spawns (iteration in_parent "history" initial).
Proof.
  apply (history_on_empty_store_spawns in_parent initial); reflexivity.
Defined.

(** ** execute *)

Lemma c_not_never_negative (r : Z) : (c_not r <? 0) = false.
Proof. unfold c_not. by destruct (r =? 0). Qed.

(** C5. In the child, when [execvp] fails and returns (whatever value it
    returns), nothing is printed and [execute] returns normally: the child
    neither reports the error nor exits, it goes back to the caller. *)
Theorem exec_failure_is_silent
    (cmd : list slot) (argv : list string) (waiting : bool) (r : Z) :
  argv_of cmd = Some argv ->
  execute (in_child_exec_failed r) cmd waiting = ([Fork; Exec argv], Ok tt).
Proof.
  intros Hargv. unfold execute, in_child_exec_failed.
  cbn [fork_ret execvp_ret Z.ltb Z.eqb Z.compare]. cbv iota.
  rewrite Hargv, c_not_never_negative. reflexivity.
Qed.

Lemma exec_failure_is_silent_witness :
  argv_of [Text "doesnotexist"; Null] = Some ["doesnotexist"]
  /\ execute (in_child_exec_failed (-1)) [Text "doesnotexist"; Null] true =
       ([Fork; Exec ["doesnotexist"]], Ok tt).
Proof.
  split; [reflexivity|].
  apply (exec_failure_is_silent [Text "doesnotexist"; Null]). reflexivity.
Defined.

(** ** Array bounds *)

(** C10. After 101 lines the latest-index counter is 100, one past the last
    slot of the array, and the next [!!] or [history] reads [history[100]]. *)
Theorem latest_index_leaves_the_array (os : os_answer) :
  let st := state_after (replicate 101 "ls") in
  length (history st) = Z.to_nat MAX_HISTORY
  /\ history_count st = MAX_HISTORY
  /\ in_bounds (history st) (history_count st) = false
  /\ iteration os "!!" st = ([Print "dsh>"], Faulted)
  /\ iteration os "history" st =
       ([Print "dsh>"; Print ("Command history:" ++ newline)], Faulted).
Proof. repeat split; vm_compute; reflexivity. Qed.

(** ** The tokenizer *)

Example tokenize_echo : tokenize "echo a  b" = Some (["echo"; "a"; "b"], true).
Proof. reflexivity. Qed.

Example tokenize_background : tokenize "cmd &" = Some (["cmd"], false).
Proof. reflexivity. Qed.

(** C4. A [&] that is not the last token is removed all the same and clears
    the wait flag, and a [&] that is the only token is kept and leaves the
    flag set. *)
Theorem ampersand_position_is_not_checked :
  tokenize "a & b" = Some (["a"; "b"], false)
  /\ tokenize "&" = Some (["&"], true).
Proof. split; reflexivity. Qed.

(** ** States of the loop *)

Lemma bind_ok {A B} (m : M A) (f : A -> M B) (b : B) :
  result (bind m f) = Ok b ->
  exists a, result m = Ok a /\ result (f a) = Ok b.
Proof.
  destruct m as [t [a| | | |]]; simpl; try discriminate.
  destruct (f a) as [t' r] eqn:E. simpl. intros ->.
  exists a. by rewrite E.
Qed.

Lemma access_ok {A} (o : option A) (a : A) :
  result (access o) = Ok a -> o = Some a.
Proof. destruct o; simpl; congruence. Qed.

Lemma initial_well_formed : well_formed initial.
Proof.
  unfold well_formed. split; [reflexivity|]. split; [reflexivity|].
  split; [simpl; unfold MAX_HISTORY; lia|].
  simpl. intros i Hi. lia.
Qed.

Lemma parse_rest_length (fuel : nat) (saved : string) (a a' : list slot)
    (k : Z) (w w' : bool) :
  parse_rest fuel saved a k w = Some (a', w') -> length a' = length a.
Proof.
  revert saved a k w. induction fuel as [|fuel IH]; intros saved a k w;
    [discriminate|].
  cbn [parse_rest]. destruct (strtok saved) as [[tok rest]|].
  - destruct (store a k (Text tok)) as [a1|] eqn:E1; [|discriminate].
    cbn [mbind option_bind]. apply store_length in E1.
    destruct (string_compare tok "&").
    + destruct (store a1 k (Text " ")) as [a2|] eqn:E2; [|discriminate].
      cbn [mbind option_bind]. apply store_length in E2.
      intros H. apply IH in H. congruence.
    + intros H. apply IH in H. congruence.
  - destruct (store a k Null) as [a1|] eqn:E1; [|discriminate].
    cbn [mbind option_bind]. apply store_length in E1. congruence.
Qed.

Lemma parse_input_length (input : string) (a a' : list slot) (w w' : bool) :
  parse_input input a w = Some (a', w') -> length a' = length a.
Proof.
  unfold parse_input. destruct (strtok input) as [[tok rest]|].
  - destruct (store a 0 (Text tok)) as [a1|] eqn:E1; [|discriminate].
    cbn [mbind option_bind]. apply store_length in E1.
    intros H. apply parse_rest_length in H. congruence.
  - destruct (store a 0 Null) as [a1|] eqn:E1; [|discriminate].
    cbn [mbind option_bind]. apply store_length in E1. congruence.
Qed.

Lemma recall_other_line (c : ascii) (after : string) (st : shell) :
  c <> "!"%char ->
  string_compare (String c after) "!!" = false ->
  recall (String c after) st = ([], Ok (Some (String c after), st)).
Proof.
  intros Hc Hcmp. unfold recall. rewrite Hcmp.
  destruct c as [[] [] [] [] [] [] [] []]; try reflexivity. by destruct Hc.
Qed.

Lemma recall_same_state (line : string) (st st' : shell)
    (input : option string) :
  result (recall line st) = Ok (input, st') ->
  args st' = args st /\ same_history st st'.
Proof.
  unfold same_history.
  destruct (string_compare line "!!") eqn:Hcmp.
  - unfold recall. rewrite Hcmp.
    destruct (negb (history_count st =? -1)).
    + intros H. apply bind_ok in H as (text & _ & H). simpl in H.
      by inversion H.
    + simpl. intros H. by inversion H.
  - destruct line as [|c after].
    { unfold recall. rewrite Hcmp. simpl. intros H. by inversion H. }
    destruct (Ascii.eqb_spec c "!") as [->|Hc].
    + unfold recall. rewrite Hcmp. cbv zeta.
      destruct ((recall_index after <=? history_count st)
                && (recall_index after >? -1)).
      * intros H. apply bind_ok in H as (text & _ & H). simpl in H.
        by inversion H.
      * simpl. intros H. by inversion H.
    + rewrite recall_other_line by done. simpl. intros H. by inversion H.
Qed.

Lemma builtin_or_parse_same_history (input : option string) (st st' : shell) :
  result (builtin_or_parse input st) = Ok st' ->
  length (args st') = length (args st) /\ same_history st st'.
Proof.
  unfold builtin_or_parse, same_history.
  intros H. apply bind_ok in H as (text & _ & H).
  destruct (string_compare text "history").
  - destruct (history_count st =? -1).
    + simpl in H. by inversion H.
    + apply bind_ok in H as (? & _ & H). simpl in H. by inversion H.
  - apply bind_ok in H as ([a w] & Hparse & H). simpl in H. inversion H.
    apply access_ok in Hparse. apply parse_input_length in Hparse. done.
Qed.

Lemma load_insert {A} (a : list A) (idx : nat) (i : Z) (x : A) :
  (idx < length a)%nat ->
  load (<[idx:=x]> a) i =
    if i =? Z.of_nat idx then Some x else load a i.
Proof.
  intros Hidx. unfold load, in_bounds. rewrite length_insert.
  destruct (Z.eqb_spec i (Z.of_nat idx)) as [->|Hne].
  - destruct (Z.leb_spec 0 (Z.of_nat idx)); [|lia].
    destruct (Z.ltb_spec (Z.of_nat idx) (Z.of_nat (length a))); [|lia].
    simpl. rewrite Nat2Z.id. by apply list_lookup_insert_eq.
  - destruct (0 <=? i) eqn:E0; [|done].
    destruct (i <? Z.of_nat (length a)); [|done]. simpl.
    apply list_lookup_insert_ne. apply Z.leb_le in E0. lia.
Qed.

Lemma well_formed_same (st st' : shell) :
  length (args st') = length (args st) ->
  same_history st st' ->
  well_formed st -> well_formed st'.
Proof.
  intros Hargs [Hhist Hhc] (Ha & Hh & Hc & Hslots).
  unfold well_formed. rewrite Hargs, Hhist, Hhc. done.
Qed.

Lemma append_history_reset (input : option string) (st : shell) :
  history_count st >= MAX_HISTORY ->
  append_history input st = append_history input (set_history_count (-1) st).
Proof.
  intros Hfull. unfold append_history.
  destruct (Z.geb_spec (history_count st) MAX_HISTORY); [|lia].
  reflexivity.
Qed.

(** In a well-formed state the append writes inside the array, and the
    state it leaves is well formed. *)
Lemma append_history_well_formed (line : string) (st : shell) :
  well_formed st ->
  exists st',
    append_history (Some line) st = ([], Ok st')
    /\ well_formed st'
    /\ args st' = args st
    /\ need_fork st' = need_fork st
    /\ should_wait st' = should_wait st
    /\ load (history st') (history_count st' mod MAX_HISTORY) = Some (Text line).
Proof.
  intros (Ha & Hh & Hc & Hslots).
  assert (exists st1, -1 <= history_count st1 < MAX_HISTORY
            /\ append_history (Some line) st = append_history (Some line) st1
            /\ history st1 = history st /\ args st1 = args st
            /\ need_fork st1 = need_fork st /\ should_wait st1 = should_wait st
            /\ (history_count st1 = history_count st
                \/ history_count st1 = -1)) as (st1 & Hc1 & -> & Hh1 & Ha1 & Hn1 & Hw1 & Hcases).
  { destruct (Z.eq_dec (history_count st) MAX_HISTORY) as [Hfull|Hnot].
    - exists (set_history_count (-1) st). unfold MAX_HISTORY in *.
      rewrite <- append_history_reset by (unfold MAX_HISTORY; lia).
      simpl. repeat split; auto; lia.
    - exists st. repeat split; auto; lia. }
  rewrite append_history_step by (rewrite ?Hh1; done).
  eexists. split; [reflexivity|]. unfold well_formed.
  cbn [args history history_count need_fork should_wait
       set_history set_history_count].
  unfold MAX_HISTORY in *. rewrite Hh1, Ha1.
  set (hc := history_count st1 + 1) in *.
  assert (0 <= hc mod 100 < 100) as Hidx by (apply Z.mod_pos_bound; lia).
  assert ((Z.to_nat (hc mod 100) < length (history st))%nat) as Hlt by lia.
  split; [|split; [done|split; [done|split; [done|]]]].
  - split; [done|]. split; [by rewrite length_insert|]. split; [lia|].
    intros i Hi Hi100. rewrite load_insert by done.
    destruct (Z.eqb_spec i (Z.of_nat (Z.to_nat (hc mod 100)))) as [|Hne];
      [eauto|].
    apply Hslots; [|done].
    assert (hc = 100 \/ hc < 100) as [Hfull|Hsmall] by lia.
    + destruct Hcases; lia.
    + rewrite Z.mod_small in Hne by lia. destruct Hcases; lia.
  - rewrite load_insert by done.
    destruct (Z.eqb_spec (hc mod 100) (Z.of_nat (Z.to_nat (hc mod 100))));
      [done|lia].
Qed.

(** Every iteration that returns to the prompt leaves a well-formed state. *)
Lemma iteration_well_formed (os : os_answer) (line : string) (st st' : shell) :
  well_formed st ->
  result (iteration os line st) = Ok st' ->
  well_formed st'.
Proof.
  intros Hwf H. unfold iteration in H.
  apply bind_ok in H as (? & _ & H).
  destruct (Nat.eqb (String.length line) 0).
  { simpl in H. by inversion H; subst. }
  destruct (string_compare line "exit").
  { simpl in H. inversion H; subst. revert Hwf. by apply well_formed_same. }
  apply bind_ok in H as ([input st1] & Hrecall & H).
  apply recall_same_state in Hrecall as [Hargs1 Hsame1].
  apply bind_ok in H as (st2 & Hparse & H).
  apply builtin_or_parse_same_history in Hparse as [Hargs2 Hsame2].
  assert (well_formed st2) as Hwf2.
  { eapply well_formed_same; [exact Hargs2|exact Hsame2|].
    eapply well_formed_same; [by rewrite Hargs1|exact Hsame1|].
    revert Hwf. by apply well_formed_same. }
  apply bind_ok in H as (st3 & Happend & H).
  destruct (append_history_well_formed (default line input) st2 Hwf2)
    as (st3' & Hrun & Hwf3 & _).
  rewrite Hrun in Happend. simpl in Happend. inversion Happend; subst st3'.
  destruct (need_fork st3).
  - apply bind_ok in H as (? & _ & H). simpl in H. by inversion H; subst.
  - simpl in H. by inversion H; subst.
Qed.

Lemma main_loop_well_formed (inputs : list (string * os_answer))
    (st st' : shell) :
  well_formed st ->
  result (main_loop inputs st) = Ok st' ->
  well_formed st'.
Proof.
  revert st. induction inputs as [|[line os] inputs IH]; intros st Hwf;
    simpl; destruct (should_run st =? 0); try discriminate.
  - simpl. intros H. by inversion H; subst.
  - intros H. apply bind_ok in H as (st1 & Hstep & H).
    eapply IH; [|exact H]. by eapply iteration_well_formed.
Qed.

(** Whatever was typed, the state in which the shell waits at its prompt
    is well formed: in particular the counter never exceeds 100, and every
    write of the history array was inside it. *)
Lemma main_well_formed (inputs : list (string * os_answer)) (st : shell) :
  result (main inputs) = Ok st -> well_formed st.
Proof. apply main_loop_well_formed, initial_well_formed. Qed.

(** Once the counter has reached 100 (any 101 recorded lines do that, see
    [append_all_fills] and [append_history_step]), the slot it names is
    outside the array, and [!!] reads it. *)
Lemma latest_out_of_bounds (os : os_answer) (st : shell) :
  well_formed st ->
  history_count st = MAX_HISTORY ->
  load (history st) (history_count st) = None
  /\ iteration os "!!" st = ([Print "dsh>"], Faulted).
Proof.
  intros (_ & Hsize & _) Hfull.
  assert (load (history st) (history_count st) = None) as Hload.
  { apply load_out_of_bounds. rewrite Hsize, Hfull. unfold MAX_HISTORY. lia. }
  split; [exact Hload|].
  unfold iteration. cbn [String.length Nat.eqb].
  change (string_compare "!!" "exit") with false. cbv iota.
  unfold recall. change (string_compare "!!" "!!") with true. cbv iota.
  cbn [history_count history set_should_wait set_need_fork].
  rewrite Hfull. change (negb (MAX_HISTORY =? -1)) with true. cbv iota.
  unfold read_string. rewrite <- Hfull, Hload. reflexivity.
Qed.

(** ** parse_input on every line *)

Lemma skip_delimiters_length (s : string) :
  (String.length (skip_delimiters s) <= String.length s)%nat.
Proof.
  induction s as [|c s IH]; simpl; [lia|].
  destruct (is_delimiter c); simpl; lia.
Qed.

Lemma skip_delimiters_head (s : string) (c : ascii) (t : string) :
  skip_delimiters s = String c t -> is_delimiter c = false.
Proof.
  induction s as [|c' s IH]; simpl; [discriminate|].
  destruct (is_delimiter c') eqn:E; [exact IH|].
  intros [= <- <-]. exact E.
Qed.

Lemma take_token_length (s tok rest : string) :
  take_token s = (tok, rest) ->
  (String.length tok + String.length rest <= String.length s)%nat
  /\ (rest <> "" ->
      (String.length tok + 1 + String.length rest <= String.length s)%nat).
Proof.
  revert tok rest. induction s as [|c s IH]; intros tok rest; simpl.
  - intros [= <- <-]. simpl. split; [lia|done].
  - destruct (is_delimiter c).
    + intros [= <- <-]. simpl. split; intros; lia.
    + destruct (take_token s) as [tok' rest'] eqn:E.
      intros [= <- <-]. destruct (IH _ _ eq_refl) as [H1 H2].
      simpl. split; [lia|]. intros Hrest. specialize (H2 Hrest). lia.
Qed.

Lemma strtok_length (s tok rest : string) :
  strtok s = Some (tok, rest) ->
  (1 <= String.length tok)%nat
  /\ (String.length tok + String.length rest <= String.length s)%nat
  /\ (rest <> "" ->
      (String.length tok + 1 + String.length rest <= String.length s)%nat).
Proof.
  unfold strtok. pose proof (skip_delimiters_length s) as Hskip.
  destruct (skip_delimiters s) as [|c t] eqn:E; [discriminate|].
  apply skip_delimiters_head in E. intros H.
  assert (take_token (String c t) = (tok, rest)) as Htok by congruence.
  pose proof (take_token_length _ _ _ Htok) as [H1 H2].
  split; [|split; [lia|intros Hrest; specialize (H2 Hrest); lia]].
  simpl in Htok. rewrite E in Htok.
  destruct (take_token t) as [tok' rest']. injection Htok as <- <-.
  simpl. lia.
Qed.

Lemma tokens_fuel_enough (f1 f2 : nat) (s : string) :
  (String.length s < f1)%nat -> (String.length s < f2)%nat ->
  tokens_fuel f1 s = tokens_fuel f2 s.
Proof.
  revert f2 s. induction f1 as [|f1 IH]; intros f2 s H1 H2; [lia|].
  destruct f2 as [|f2]; [lia|]. simpl.
  destruct (strtok s) as [[tok rest]|] eqn:E; [|done].
  apply strtok_length in E as (Htok & Hlen & _).
  f_equal. apply IH; lia.
Qed.

Lemma tokens_unfold (s : string) :
  tokens s =
    match strtok s with
    | None => []
    | Some (tok, rest) => tok :: tokens rest
    end.
Proof.
  unfold tokens at 1. cbn [tokens_fuel].
  destruct (strtok s) as [[tok rest]|] eqn:E; [|done].
  apply strtok_length in E as (Htok & Hlen & _).
  f_equal. unfold tokens. apply tokens_fuel_enough; lia.
Qed.

(** Two tokens need a delimiter between them: a line of [n] characters has
    at most [(n + 1) / 2] tokens. *)
Lemma tokens_count (s : string) :
  (2 * length (tokens s) <= String.length s + 1)%nat.
Proof.
  remember (String.length s) as n eqn:Hn.
  revert s Hn. induction n as [n IH] using lt_wf_ind. intros s ->.
  rewrite tokens_unfold.
  destruct (strtok s) as [[tok rest]|] eqn:E; [|simpl; lia].
  apply strtok_length in E as (Htok & Hlen & Hsep).
  destruct rest as [|c rest].
  - rewrite tokens_unfold. simpl. lia.
  - specialize (Hsep ltac:(discriminate)).
    specialize (IH (String.length (String c rest)) ltac:(lia) _ eq_refl).
    cbn [length]. lia.
Qed.

Lemma argv_of_prefix (a : list slot) (kept : list string) :
  take (length kept) a = Text <$> kept ->
  a !! length kept = Some Null ->
  argv_of a = Some kept.
Proof.
  revert a. induction kept as [|tok kept IH]; intros [|x a]; simpl;
    try discriminate.
  - by intros _ [= ->].
  - intros [= -> Htake] Hnull. by rewrite (IH a).
Qed.

Lemma parse_rest_tokens (fuel : nat) (saved : string) (a : list slot)
    (kept : list string) (w : bool) :
  (String.length saved < fuel)%nat ->
  take (length kept) a = Text <$> kept ->
  (length kept + length (tokens saved) < length a)%nat ->
  exists a',
    parse_rest fuel saved a (Z.of_nat (length kept)) w =
      Some (a', w && forallb not_marker (tokens saved))
    /\ argv_of a' = Some (kept ++ List.filter not_marker (tokens saved))%list.
Proof.
  revert saved a kept w.
  induction fuel as [|fuel IH]; intros saved a kept w Hfuel Hkept Hroom; [lia|].
  cbn [parse_rest]. rewrite tokens_unfold in Hroom |- *.
  destruct (strtok saved) as [[tok rest]|] eqn:E.
  - apply strtok_length in E as (Htok & Hlen & _). cbn [length] in Hroom.
    rewrite store_in_bounds by lia. cbn [mbind option_bind].
    cbn [forallb List.filter]. unfold not_marker at 1 3.
    destruct (string_compare tok "&").
    + rewrite store_in_bounds by (rewrite length_insert; lia).
      cbn [mbind option_bind negb andb]. rewrite Nat2Z.id.
      destruct (IH rest (<[length kept:=Text " "]>
                           (<[length kept:=Text tok]> a)) kept false)
        as (a' & Hrun & Hargv).
      * lia.
      * by rewrite !take_insert_ge by lia.
      * rewrite !length_insert. lia.
      * exists a'. rewrite Hrun, andb_false_r. done.
    + cbn [negb andb]. rewrite Nat2Z.id.
      destruct (IH rest (<[length kept:=Text tok]> a) (kept ++ [tok])%list w)
        as (a' & Hrun & Hargv).
      * lia.
      * rewrite length_app, fmap_app. cbn [length].
        replace (length kept + 1)%nat with (S (length kept)) by lia.
        erewrite take_S_r
          by (apply list_lookup_insert_eq; lia).
        by rewrite take_insert_ge, Hkept by lia.
      * rewrite length_app, length_insert. cbn [length]. lia.
      * exists a'. rewrite length_app in Hrun. cbn [length] in Hrun.
        replace (Z.of_nat (length kept) + 1)
          with (Z.of_nat (length kept + 1)) by lia.
        rewrite Hrun, <- app_assoc in *. done.
  - simpl in Hroom. rewrite store_in_bounds by lia.
    cbn [mbind option_bind forallb List.filter]. rewrite Nat2Z.id.
    eexists. rewrite andb_true_r, app_nil_r. split; [reflexivity|].
    apply argv_of_prefix.
    + by rewrite take_insert_ge by lia.
    + apply list_lookup_insert_eq. lia.
Qed.

(** What [parse_input] does on every line [getline] can deliver (fewer than
    [MAX_LINE] characters): it never leaves the [args] array, the first token
    is kept whatever it is, every later token [&] is dropped, and the wait
    flag is cleared exactly when some later token is [&]. *)
Lemma parse_input_tokens (line : string) (a : list slot) (w : bool) :
  length a = Z.to_nat ARGS_SLOTS ->
  Z.of_nat (String.length line) < MAX_LINE ->
  exists a',
    parse_input line a w =
      Some (a', w && forallb not_marker (tail (tokens line)))
    /\ argv_of a' =
         Some (take 1 (tokens line)
                 ++ List.filter not_marker (tail (tokens line)))%list.
Proof.
  intros Ha Hline. change (Z.to_nat ARGS_SLOTS) with 41%nat in Ha.
  unfold MAX_LINE in Hline. pose proof (tokens_count line) as Hcount.
  unfold parse_input. rewrite tokens_unfold in Hcount |- *.
  destruct (strtok line) as [[tok rest]|] eqn:E.
  - apply strtok_length in E as (Htok & Hlen & _). cbn [length] in Hcount.
    rewrite store_in_bounds by lia. cbn [mbind option_bind tail take].
    destruct (parse_rest_tokens (S (String.length rest)) rest
                (<[Z.to_nat 0:=Text tok]> a) [tok] w)
      as (a' & Hrun & Hargv).
    + lia.
    + destruct a; [discriminate Ha|reflexivity].
    + rewrite length_insert. cbn [length]. lia.
    + exists a'. done.
  - rewrite store_in_bounds by lia. cbn [mbind option_bind tail take forallb].
    eexists. rewrite andb_true_r. split; [reflexivity|].
    destruct a; [discriminate Ha|reflexivity].
Qed.

(** In every state the shell can reach in which the counter is still inside
    the array, the [history] listing is the one of C9. *)
Lemma print_history_reachable (inputs : list (string * os_answer))
    (st : shell) :
  result (main inputs) = Ok st ->
  0 <= history_count st < MAX_HISTORY ->
  print_history (history st) (history_count st) =
    (Print ("Command history:" ++ newline)
       :: (listed (slot_text st)
             <$> descending (history_count st)
                   (Z.to_nat (Z.min 10 (history_count st + 1)))),
     Ok tt).
Proof.
  intros Hmain Hhc. apply main_well_formed in Hmain as (_ & _ & _ & Hslots).
  apply print_history_recent_first_lines; [done|].
  intros i Hi. destruct (Hslots i) as [text Hload]; [lia..|].
  unfold slot_text. by rewrite Hload.
Qed.

(** X20. [need_fork] is cleared in two places only: an iteration that
    reaches the append with the flag cleared either read [!!] on an empty
    history or handled the [history] built-in on a non-empty one. *)
Lemma need_fork_cleared_only (line : string) (copied : option string)
    (st st1 st2 : shell) :
  need_fork st = true ->
  result (recall line st) = Ok (copied, st1) ->
  result (builtin_or_parse (Some (default line copied)) st1) = Ok st2 ->
  need_fork st2 = false ->
  (line = "!!" /\ history_count st = -1)
  \/ (default line copied = "history" /\ history_count st <> -1).
Proof.
  intros Hfork Hrecall Hparse Hcleared.
  assert (need_fork st1 = true /\ history_count st1 = history_count st
          \/ line = "!!" /\ history_count st = -1) as Hcases.
  { clear Hparse Hcleared. destruct (string_compare line "!!") eqn:Hcmp.
    - apply string_compare_true in Hcmp as ->. unfold recall in Hrecall.
      change (string_compare "!!" "!!") with true in Hrecall.
      destruct (Z.eqb_spec (history_count st) (-1)); [auto|].
      simpl in Hrecall. apply bind_ok in Hrecall as (text & _ & H).
      simpl in H. inversion H; subst. auto.
    - left. destruct line as [|c after].
      { unfold recall in Hrecall. rewrite Hcmp in Hrecall.
        simpl in Hrecall. inversion Hrecall; subst. auto. }
      destruct (Ascii.eqb_spec c "!") as [->|Hc].
      + unfold recall in Hrecall. rewrite Hcmp in Hrecall.
        cbv zeta in Hrecall.
        destruct ((recall_index after <=? history_count st)
                  && (recall_index after >? -1)).
        * apply bind_ok in Hrecall as (text & _ & H).
          simpl in H. inversion H; subst. auto.
        * simpl in Hrecall. inversion Hrecall; subst. auto.
      + rewrite recall_other_line in Hrecall by done.
        simpl in Hrecall. inversion Hrecall; subst. auto. }
  destruct Hcases as [[Hfork1 Hhc1]|Hbang]; [|by left].
  right. unfold builtin_or_parse in Hparse.
  apply bind_ok in Hparse as (text & Hinput & H).
  apply access_ok in Hinput. injection Hinput as Hinput.
  rewrite Hinput. clear Hinput.
  destruct (string_compare text "history") eqn:Hcmp.
  - apply string_compare_true in Hcmp as ->. split; [done|].
    rewrite <- Hhc1. destruct (Z.eqb_spec (history_count st1) (-1)); [|done].
    simpl in H. inversion H; subst. congruence.
  - apply bind_ok in H as ([a w] & _ & H). simpl in H. inversion H; subst.
    simpl in Hcleared. congruence.
Qed.

(** * Further properties of the code *)

(** ** One iteration on an external command *)

Lemma ordinary_facts (line : string) :
  ordinary line = true ->
  (exists c after, line = String c after /\ c <> "!"%char)
  /\ Z.of_nat (String.length line) < MAX_LINE
  /\ line <> "exit" /\ line <> "history".
Proof.
  unfold ordinary. rewrite !andb_true_iff, !negb_true_iff.
  intros ((((Hlen & Hshort) & Hexit) & Hhist) & Hbang).
  apply Z.ltb_lt in Hshort. apply String.eqb_neq in Hexit, Hhist.
  repeat split; try done.
  destruct line as [|c after]; [discriminate Hlen|].
  exists c, after. split; [done|]. intros ->. discriminate Hbang.
Qed.

Lemma append_history_next (line : string) (st : shell) :
  well_formed st ->
  append_history (Some line) st =
    ([], Ok (set_history
               (<[Z.to_nat (next_count (history_count st) mod 100):=Text line]>
                  (history st))
               (set_history_count (next_count (history_count st)) st))).
Proof.
  intros (_ & Hsize & Hhc & _). unfold next_count.
  destruct (Z.geb_spec (history_count st) MAX_HISTORY) as [Hfull|Hroom].
  - rewrite append_history_reset by lia.
    rewrite append_history_step by (cbn; first [done | unfold MAX_HISTORY; lia]).
    reflexivity.
  - by rewrite append_history_step by (first [done | lia]).
Qed.

Lemma next_count_well_formed (line : string) (st : shell) :
  well_formed st ->
  well_formed
    (set_history
       (<[Z.to_nat (next_count (history_count st) mod 100):=Text line]>
          (history st))
       (set_history_count (next_count (history_count st)) st)).
Proof.
  intros Hwf. destruct (append_history_well_formed line st Hwf)
    as (st' & Hrun & Hwf' & _).
  rewrite append_history_next in Hrun by done. by inversion Hrun; subst.
Qed.

Lemma bind_ok_l {A B} (t : list event) (a : A) (f : A -> M B) :
  bind (t, Ok a) f = ((t ++ trace (f a))%list, result (f a)).
Proof. unfold bind. by destruct (f a). Qed.

Lemma bind_ret_l {A B} (a : A) (f : A -> M B) : bind ([], Ok a) f = f a.
Proof. unfold bind. by destruct (f a). Qed.

Lemma bind_same {A B} (m : M A) (f g : A -> M B) :
  (forall a, f a = g a) -> bind m f = bind m g.
Proof. intros H. destruct m as [t [a| | | |]]; simpl; by rewrite ?H. Qed.

Lemma parse_command (line : string) (st : shell) (a : list slot) (w : bool) :
  line <> "history" ->
  parse_input line (args st) (should_wait st) = Some (a, w) ->
  builtin_or_parse (Some line) st =
    ([], Ok (set_should_wait w (set_args a st))).
Proof.
  intros Hline Hparse. unfold builtin_or_parse, access, ret.
  rewrite bind_ret_l, string_compare_false, Hparse by done. reflexivity.
Qed.

(** An external command line goes through the iteration untouched by the
    recall and [history] branches: the prompt, then [execute] on the parsed
    arguments, in a state that has the line recorded. *)
Lemma iteration_ordinary (os : os_answer) (line : string) (st : shell) :
  well_formed st ->
  ordinary line = true ->
  exists st',
    iteration os line st =
      (printf "dsh>" ;;; execute os (args st') (should_wait st') ;;; ret st')
    /\ argv_of (args st') = Some (argv_for line)
    /\ should_wait st' = waits_for line
    /\ need_fork st' = true
    /\ should_run st' = should_run st
    /\ history_count st' = next_count (history_count st)
    /\ history st' =
         <[Z.to_nat (next_count (history_count st) mod 100):=Text line]>
           (history st)
    /\ well_formed st'.
Proof.
  intros Hwf Hline.
  apply ordinary_facts in Hline as ((c & after & -> & Hc) & Hshort & Hexit & Hhist).
  set (line := String c after) in *.
  pose proof Hwf as (Hargs & _).
  destruct (parse_input_tokens line (args st) true Hargs Hshort)
    as (a' & Hparse & Hargv).
  set (st1 := set_should_wait (true && forallb not_marker (tail (tokens line)))
                (set_args a' (set_should_wait true (set_need_fork true st)))).
  assert (well_formed st1) as Hwf1.
  { revert Hwf. apply well_formed_same; [|done]. cbn.
    apply parse_input_length in Hparse. done. }
  exists (set_history
            (<[Z.to_nat (next_count (history_count st1) mod 100):=Text line]>
               (history st1))
            (set_history_count (next_count (history_count st1)) st1)).
  split; [|split; [exact Hargv|split; [reflexivity|split; [reflexivity|
    split; [reflexivity|split; [reflexivity|split; [reflexivity|]]]]]]].
  2: exact (next_count_well_formed line st1 Hwf1).
  - unfold iteration. subst line. cbn [String.length Nat.eqb].
    rewrite string_compare_false by done. cbv iota.
    apply bind_same; intros _.
    rewrite recall_other_line
      by (first [done | apply string_compare_false; congruence]).
    rewrite bind_ret_l. cbn [default from_option id].
    rewrite (parse_command _ (set_should_wait true (set_need_fork true st))
               _ _ Hhist Hparse), bind_ret_l.
    fold st1.
    rewrite (append_history_next _ st1 Hwf1), bind_ret_l.
    reflexivity.
Qed.

Lemma wait_for_found (child : Z) (others later : list Z) :
  Forall (fun r => r <> child) others ->
  wait_for child (others ++ child :: later) =
    (replicate (S (length others)) Wait, Ok tt).
Proof.
  induction 1 as [|r others Hr _ IH]; cbn [wait_for app length].
  - rewrite Z.eqb_refl. reflexivity.
  - destruct (Z.eqb_spec r child); [done|]. cbn [negb].
    unfold emit. rewrite bind_ok_l, IH. reflexivity.
Qed.

Lemma wait_for_blocked (child : Z) (answers : list Z) :
  Forall (fun r => r <> child) answers ->
  wait_for child answers = (replicate (S (length answers)) Wait, Blocked).
Proof.
  induction 1 as [|r answers Hr _ IH]; cbn [wait_for length]; [reflexivity|].
  destruct (Z.eqb_spec r child); [done|]. cbn [negb].
  unfold emit. rewrite bind_ok_l, IH. reflexivity.
Qed.

(** ** A failed recall is recorded *)



Lemma wait_for_only_waits (child : Z) (answers : list Z) (e : event) :
  In e (trace (wait_for child answers)) -> e = Wait.
Proof.
  induction answers as [|r answers IH]; cbn [wait_for]; unfold emit;
    rewrite bind_ok_l; cbn [trace fst app].
  - intros [H|[]]. done.
  - intros [H|H]; [done|]. destruct (negb (r =? child)); [by apply IH|].
    destruct H.
Qed.

(** X1. In the shell itself ([fork] returns the child's id) an external
    command line makes one iteration that prints the prompt and forks once.
    When no token after the first is [&] it then calls [wait] again and
    again until a call returns the child's id, one call for every other id
    reported first and one for the child's; otherwise it does not call
    [wait] at all.  It returns to the prompt with the line recorded
    verbatim in the slot the counter now names and with the parsed argument
    vector in [args]. *)
Theorem external_command_in_parent
    (os : os_answer) (line : string) (st : shell) (others later : list Z) :
  well_formed st ->
  ordinary line = true ->
  0 < fork_ret os ->
  (waits_for line = true ->
   wait_rets os = (others ++ fork_ret os :: later)%list
   /\ Forall (fun r => r <> fork_ret os) others) ->
  exists st',
    iteration os line st =
      ((Print "dsh>" :: Fork
          :: if waits_for line then replicate (S (length others)) Wait
             else []),
       Ok st')
    /\ argv_of (args st') = Some (argv_for line)
    /\ history_count st' = next_count (history_count st)
    /\ load (history st') (history_count st' mod MAX_HISTORY)
       = Some (Text line)
    /\ well_formed st'.
Proof.
  intros Hwf Hline Hfork Hanswers.
  destruct (iteration_ordinary os line st Hwf Hline)
    as (st' & Hrun & Hargv & Hwait & _ & _ & Hhc & Hhist & Hwf').
  exists st'. split; [|split; [done|split; [done|split; [|done]]]].
  - rewrite Hrun, Hwait. unfold execute.
    destruct (Z.ltb_spec (fork_ret os) 0); [lia|].
    destruct (Z.eqb_spec (fork_ret os) 0); [lia|].
    destruct (waits_for line); [|reflexivity].
    destruct (Hanswers eq_refl) as [-> Hothers].
    unfold printf, emit. rewrite !bind_ok_l, wait_for_found by done.
    cbn [trace result fst snd]. rewrite bind_ok_l.
    cbn [trace result fst snd ret app]. by rewrite app_nil_r.
  - rewrite Hhist, Hhc. destruct Hwf as (_ & Hsize & _).
    unfold MAX_HISTORY in *.
    assert (0 <= next_count (history_count st) mod 100 < 100)
      by (apply Z.mod_pos_bound; lia).
    rewrite load_insert by lia.
    by destruct (Z.eqb_spec (next_count (history_count st) mod 100)
                   (Z.of_nat (Z.to_nat (next_count (history_count st) mod 100))));
      [|lia].
Qed.

Lemma external_command_in_parent_witness :
  exists st',
    iteration {| fork_ret := 9; execvp_ret := None; wait_rets := [7; 9] |}
      "sleep 5" initial = ([Print "dsh>"; Fork; Wait; Wait], Ok st')
    /\ argv_of (args st') = Some ["sleep"; "5"]
    /\ history_count st' = 0
    /\ load (history st') 0 = Some (Text "sleep 5")
    /\ well_formed st'.
Proof.
  destruct (external_command_in_parent
              {| fork_ret := 9; execvp_ret := None; wait_rets := [7; 9] |}
              "sleep 5" initial [7] [])
    as (st' & Hrun & Hargv & Hhc & Hload & Hwf);
    [exact initial_well_formed|reflexivity|reflexivity| |].
  - intros _. split; [reflexivity|]. constructor; [discriminate|constructor].
  - rewrite Hhc in Hload.
    exists st'. split; [exact Hrun|]. split; [exact Hargv|].
    split; [exact Hhc|]. split; [exact Hload|exact Hwf].
Defined.

(** X23. In the shell itself, when a foreground command (no token [&]
    after the first) has been forked and no call of [wait] returns the
    child's id, the iteration does not come back to the prompt: it calls
    [wait] once for every answer it is given and is still inside [wait]
    after the last. *)
Theorem foreground_command_blocks_in_wait
    (os : os_answer) (line : string) (st : shell) :
  well_formed st ->
  ordinary line = true ->
  0 < fork_ret os ->
  waits_for line = true ->
  Forall (fun r => r <> fork_ret os) (wait_rets os) ->
  iteration os line st =
    (Print "dsh>" :: Fork :: replicate (S (length (wait_rets os))) Wait,
     Blocked).
Proof.
  intros Hwf Hline Hfork Hwaits Hanswers.
  destruct (iteration_ordinary os line st Hwf Hline)
    as (st' & Hrun & _ & Hwait & _).
  rewrite Hrun, Hwait, Hwaits. unfold execute.
  destruct (Z.ltb_spec (fork_ret os) 0); [lia|].
  destruct (Z.eqb_spec (fork_ret os) 0); [lia|].
  unfold printf, emit. rewrite !bind_ok_l, wait_for_blocked by done.
  reflexivity.
Qed.

Lemma foreground_command_blocks_in_wait_witness :
  iteration {| fork_ret := 9; execvp_ret := None; wait_rets := [7; 8] |}
    "sleep 5" initial = ([Print "dsh>"; Fork; Wait; Wait; Wait], Blocked).
Proof.
  apply (foreground_command_blocks_in_wait
           {| fork_ret := 9; execvp_ret := None; wait_rets := [7; 8] |}
           "sleep 5" initial).
  - exact initial_well_formed.
  - reflexivity.
  - reflexivity.
  - reflexivity.
  - repeat (constructor; [discriminate|]). constructor.
Defined.

(** X2. In the forked child ([fork] returns 0) the same iteration hands
    [execvp] exactly the argument vector of the line: its first token and
    the later tokens other than [&].  When [execvp] succeeds the shell image
    is gone; when it returns, the child is back at the loop as a second shell
    that has the line recorded. *)
Theorem external_command_in_child
    (os : os_answer) (line : string) (st : shell) :
  well_formed st ->
  ordinary line = true ->
  fork_ret os = 0 ->
  exists st',
    iteration os line st =
      ([Print "dsh>"; Fork; Exec (argv_for line)],
       match execvp_ret os with
       | None => Replaced
       | Some _ => Ok st'
       end)
    /\ history_count st' = next_count (history_count st)
    /\ history st' =
         <[Z.to_nat (next_count (history_count st) mod 100):=Text line]>
           (history st)
    /\ well_formed st'.
Proof.
  intros Hwf Hline Hfork.
  destruct (iteration_ordinary os line st Hwf Hline)
    as (st' & Hrun & Hargv & _ & _ & _ & Hhc & Hhist & Hwf').
  exists st'. split; [|done].
  rewrite Hrun. unfold execute. rewrite Hfork, Hargv.
  destruct (execvp_ret os) as [r|]; [|reflexivity].
  cbn. by rewrite c_not_never_negative.
Qed.

Lemma external_command_in_child_witness :
  iteration {| fork_ret := 0; execvp_ret := None; wait_rets := [] |} "ls -l /tmp" initial =
    ([Print "dsh>"; Fork; Exec ["ls"; "-l"; "/tmp"]], Replaced).
Proof.
  destruct (external_command_in_child
              {| fork_ret := 0; execvp_ret := None; wait_rets := [] |} "ls -l /tmp" initial)
    as (st' & H & _); [exact initial_well_formed|reflexivity|reflexivity|].
  exact H.
Defined.

(** X3. When [fork] fails on an external command the whole interpreter
    stops: it prints "Fork failed!" followed by an empty line and exits with
    status 1, and no later input line is read. *)
Theorem fork_failure_ends_the_shell
    (os : os_answer) (line : string) (st : shell)
    (later : list (string * os_answer)) :
  well_formed st ->
  ordinary line = true ->
  should_run st <> 0 ->
  fork_ret os < 0 ->
  main_loop ((line, os) :: later) st =
    ([Print "dsh>"; Fork; Print ("Fork failed!" ++ newline ++ newline)],
     Exited 1).
Proof.
  intros Hwf Hline Hrun Hfork.
  destruct (iteration_ordinary os line st Hwf Hline) as (st' & Hiter & _).
  cbn [main_loop]. destruct (Z.eqb_spec (should_run st) 0); [done|].
  rewrite Hiter. unfold execute.
  destruct (Z.ltb_spec (fork_ret os) 0); [|lia]. reflexivity.
Qed.

Lemma fork_failure_ends_the_shell_witness :
  main_loop [("ls", {| fork_ret := -1; execvp_ret := None; wait_rets := [] |});
             ("pwd", in_parent)] initial =
    ([Print "dsh>"; Fork; Print ("Fork failed!" ++ newline ++ newline)],
     Exited 1).
Proof.
  apply (fork_failure_ends_the_shell
           {| fork_ret := -1; execvp_ret := None; wait_rets := [] |} "ls" initial).
  - exact initial_well_formed.
  - reflexivity.
  - discriminate.
  - reflexivity.
Defined.

(** ** string_compare *)

(** X4. [string_compare] returns true exactly when its two arguments are the
    same string: the length pass and the character pass together decide
    equality. *)
Theorem string_compare_decides_equality (s1 s2 : string) :
  string_compare s1 s2 = true <-> s1 = s2.
Proof.
  split.
  - intros H. by apply string_compare_true.
  - intros ->. apply string_compare_refl.
Qed.

(** ** parse_input *)

(** X5. On every line that fits the input buffer, and whatever the [args]
    array held before, [parse_input] stays inside the 41 slots of [args],
    leaves there the first token followed by the later tokens other than
    [&] and a null terminator, and clears the wait flag exactly when some
    later token is [&] (it never sets it). *)
Theorem parse_input_keeps_command_drops_markers
    (line : string) (a : list slot) (w : bool) :
  length a = Z.to_nat ARGS_SLOTS ->
  Z.of_nat (String.length line) < MAX_LINE ->
  exists a',
    parse_input line a w = Some (a', w && waits_for line)
    /\ argv_of a' = Some (argv_for line)
    /\ length a' = length a.
Proof.
  intros Ha Hline.
  destruct (parse_input_tokens line a w Ha Hline) as (a' & Hrun & Hargv).
  exists a'. split; [exact Hrun|]. split; [exact Hargv|].
  by apply parse_input_length in Hrun.
Qed.

Lemma parse_input_keeps_command_drops_markers_witness :
  exists a',
    parse_input "make -j & all &" (args initial) true = Some (a', false)
    /\ argv_of a' = Some ["make"; "-j"; "all"]
    /\ length a' = 41%nat.
Proof.
  destruct (parse_input_keeps_command_drops_markers
              "make -j & all &" (args initial) true)
    as (a' & H); [reflexivity|reflexivity|].
  exists a'. exact H.
Defined.

Lemma filter_no_marker (toks : list string) :
  Forall (fun t => t <> "&") toks ->
  List.filter not_marker toks = toks /\ forallb not_marker toks = true.
Proof.
  induction 1 as [|t toks Ht _ [IH1 IH2]]; [done|].
  cbn [List.filter forallb]. rewrite IH1, IH2.
  unfold not_marker. rewrite string_compare_false by done. done.
Qed.

(** X6. A command that ends in the token [&], with no other [&] after the
    command name, is parsed as the command without that token and with the
    wait flag cleared. *)
Theorem trailing_marker_runs_in_background
    (line cmd : string) (middle : list string) (a : list slot) :
  length a = Z.to_nat ARGS_SLOTS ->
  Z.of_nat (String.length line) < MAX_LINE ->
  tokens line = (cmd :: middle ++ ["&"])%list ->
  Forall (fun t => t <> "&") middle ->
  exists a',
    parse_input line a true = Some (a', false)
    /\ argv_of a' = Some (cmd :: middle).
Proof.
  intros Ha Hline Htokens Hmiddle.
  destruct (parse_input_tokens line a true Ha Hline) as (a' & Hrun & Hargv).
  apply filter_no_marker in Hmiddle as [Hfilter Hall].
  rewrite Htokens in Hrun, Hargv. cbn [tail take] in Hrun, Hargv.
  rewrite forallb_app in Hrun. rewrite List.filter_app, Hfilter in Hargv.
  exists a'. split.
  - rewrite Hrun, Hall. reflexivity.
  - rewrite Hargv. cbn. by rewrite app_nil_r.
Qed.

Lemma trailing_marker_runs_in_background_witness :
  exists a',
    parse_input "sleep 5 &" (args initial) true = Some (a', false)
    /\ argv_of a' = Some ["sleep"; "5"].
Proof.
  apply (trailing_marker_runs_in_background "sleep 5 &" "sleep" ["5"]).
  - reflexivity.
  - reflexivity.
  - reflexivity.
  - repeat constructor; discriminate.
Defined.

(** X7. A command in which no token after the first is [&] keeps every
    token, in order, and leaves the wait flag as it was. *)
Theorem no_marker_keeps_every_token
    (line : string) (a : list slot) (w : bool) :
  length a = Z.to_nat ARGS_SLOTS ->
  Z.of_nat (String.length line) < MAX_LINE ->
  Forall (fun t => t <> "&") (tail (tokens line)) ->
  exists a',
    parse_input line a w = Some (a', w)
    /\ argv_of a' = Some (tokens line).
Proof.
  intros Ha Hline Hrest.
  destruct (parse_input_tokens line a w Ha Hline) as (a' & Hrun & Hargv).
  apply filter_no_marker in Hrest as [Hfilter Hall].
  rewrite Hall, andb_true_r in Hrun. rewrite Hfilter in Hargv.
  exists a'. split; [exact Hrun|]. rewrite Hargv.
  by destruct (tokens line).
Qed.

Lemma no_marker_keeps_every_token_witness :
  exists a',
    parse_input "echo a  b" (args initial) true = Some (a', true)
    /\ argv_of a' = Some ["echo"; "a"; "b"].
Proof.
  apply (no_marker_keeps_every_token "echo a  b" (args initial) true).
  - reflexivity.
  - reflexivity.
  - repeat constructor; discriminate.
Defined.

(** ** execute *)

(** X8. Whatever [fork] and [execvp] answer, [execute] never prints
    "Error executing command!": the test that guards the message cannot
    succeed. *)
Theorem execute_never_reports_exec_failure
    (os : os_answer) (cmd : list slot) (waiting : bool) :
  ~ In (Print ("Error executing command!" ++ newline))
       (trace (execute os cmd waiting)).
Proof.
  unfold execute, trace.
  destruct (fork_ret os <? 0).
  { cbn. intros [H|[H|[]]]; discriminate H. }
  destruct (fork_ret os =? 0).
  - destruct (argv_of cmd) as [argv|]; [|cbn; intros [H|[]]; discriminate H].
    destruct (execvp_ret os) as [r|]; cbn; rewrite ?c_not_never_negative;
      cbn; intros [H|[H|[]]]; discriminate H.
  - unfold emit. rewrite bind_ok_l. cbn [fst app].
    intros [H|H]; [discriminate H|].
    destruct waiting; [|destruct H].
    apply wait_for_only_waits in H. discriminate H.
Qed.

(** ** Successful recalls *)

Lemma recall_plain_text (text : string) (st : shell) :
  starts_with_bang text = false ->
  recall text st = ([], Ok (Some text, st)).
Proof.
  intros Hbang. destruct text as [|c after]; [reflexivity|].
  apply recall_other_line.
  - intros ->. discriminate Hbang.
  - apply string_compare_false. intros [= -> _]. discriminate Hbang.
Qed.

(** An iteration whose line is resolved to [text] goes on exactly as the
    iteration that reads [text] itself. *)
Lemma iteration_after_recall (os : os_answer) (line text : string)
    (st : shell) (echo : list event) :
  let st0 := set_should_wait true (set_need_fork true st) in
  line <> "" -> line <> "exit" ->
  text <> "" -> text <> "exit" ->
  starts_with_bang text = false ->
  recall line st0 = (echo, Ok (Some text, st0)) ->
  exists rest r,
    iteration os text st = (Print "dsh>" :: rest, r)
    /\ iteration os line st = ((Print "dsh>" :: echo ++ rest)%list, r).
Proof.
  intros st0 Hline Hline' Htext Htext' Hbang Hrecall.
  assert (forall s, s <> "" -> Nat.eqb (String.length s) 0 = false) as Hlen
    by (by intros [|? ?]).
  unfold iteration. rewrite !Hlen by done.
  rewrite !string_compare_false by done. fold st0.
  rewrite Hrecall, recall_plain_text by done.
  unfold printf, emit. rewrite !(bind_ok_l [Print "dsh>"]).
  rewrite bind_ret_l, bind_ok_l. cbn [trace result fst snd app].
  eexists _, _. split; reflexivity.
Qed.

(** X9. With a non-empty history whose latest entry does not itself start
    with [!], the line [!!] echoes that entry and then does exactly what
    the iteration does when the entry is typed again: same output after the
    echo, same process calls, same final state, including the new history
    entry for it. *)
Theorem bang_bang_replays_latest
    (os : os_answer) (text : string) (st : shell) :
  history_count st <> -1 ->
  load (history st) (history_count st) = Some (Text text) ->
  text <> "" -> text <> "exit" ->
  starts_with_bang text = false ->
  exists rest r,
    iteration os text st = (Print "dsh>" :: rest, r)
    /\ iteration os "!!" st =
         (Print "dsh>" :: Print (text ++ newline) :: rest, r).
Proof.
  intros Hhc Hload Htext Htext' Hbang.
  apply (iteration_after_recall os "!!" text st [Print (text ++ newline)]);
    try done.
  unfold recall. change (string_compare "!!" "!!") with true. cbv iota.
  cbn [history_count history set_should_wait set_need_fork].
  destruct (Z.eqb_spec (history_count st) (-1)); [done|].
  unfold read_string. rewrite Hload. reflexivity.
Qed.

Lemma bang_bang_replays_latest_witness :
  exists rest r,
    iteration in_parent "ls -l" (state_after ["pwd"; "ls -l"]) =
      (Print "dsh>" :: rest, r)
    /\ iteration in_parent "!!" (state_after ["pwd"; "ls -l"]) =
         (Print "dsh>" :: Print ("ls -l" ++ newline) :: rest, r).
Proof.
  apply (bang_bang_replays_latest in_parent "ls -l"
           (state_after ["pwd"; "ls -l"])).
  - vm_compute. discriminate.
  - reflexivity.
  - discriminate.
  - discriminate.
  - reflexivity.
Defined.

(** X10. For a number [n] between 1 and the latest display number, whose
    entry does not itself start with [!], the line [!n] echoes entry [n]
    (the text in slot [n-1]) and then does exactly what the iteration does
    when that text is typed again. *)
Theorem bang_number_replays_entry
    (os : os_answer) (n : Z) (text : string) (st : shell) :
  0 <= n - 1 <= history_count st ->
  n <= INT_MAX ->
  load (history st) (n - 1) = Some (Text text) ->
  text <> "" -> text <> "exit" ->
  starts_with_bang text = false ->
  exists rest r,
    iteration os text st = (Print "dsh>" :: rest, r)
    /\ iteration os (String "!" (print_int n)) st =
         (Print "dsh>" :: Print (text ++ newline) :: rest, r).
Proof.
  intros Hn Hmax Hload Htext Htext' Hbang.
  assert (INT_MIN < n <= INT_MAX) as Hrange by (unfold INT_MIN; lia).
  apply (iteration_after_recall os (String "!" (print_int n)) text st
           [Print (text ++ newline)]); try done.
  destruct (print_int_head n) as (c & t & Hprint & Hc).
  apply recall_index_found.
  - rewrite Hprint. congruence.
  - rewrite recall_index_print_int by done. cbn. lia.
  - by rewrite recall_index_print_int.
Qed.

Lemma bang_number_replays_entry_witness :
  exists rest r,
    iteration in_parent "pwd" (state_after ["pwd"; "ls -l"]) =
      (Print "dsh>" :: rest, r)
    /\ iteration in_parent "!1" (state_after ["pwd"; "ls -l"]) =
         (Print "dsh>" :: Print ("pwd" ++ newline) :: rest, r).
Proof.
  apply (bang_number_replays_entry in_parent 1 "pwd"
           (state_after ["pwd"; "ls -l"])).
  - vm_compute. split; discriminate.
  - vm_compute. discriminate.
  - reflexivity.
  - discriminate.
  - discriminate.
  - reflexivity.
Defined.

(** ** The [history] built-in on a non-empty history *)

Lemma history_builtin_listing (st : shell) :
  well_formed st ->
  0 <= history_count st < MAX_HISTORY ->
  builtin_or_parse (Some "history") st =
    (Print ("Command history:" ++ newline)
       :: (listed (slot_text st)
             <$> descending (history_count st)
                   (Z.to_nat (Z.min 10 (history_count st + 1)))),
     Ok (set_need_fork false st)).
Proof.
  intros (_ & _ & _ & Hslots) Hhc.
  unfold builtin_or_parse, access, ret. rewrite bind_ret_l.
  change (string_compare "history" "history") with true. cbv iota.
  destruct (Z.eqb_spec (history_count st) (-1)); [lia|].
  rewrite (print_history_recent_first_lines _ (slot_text st)); [|done|].
  - rewrite bind_ok_l. cbn [trace result fst snd]. by rewrite app_nil_r.
  - intros i Hi. destruct (Hslots i) as [text Hload]; [lia..|].
    unfold slot_text. by rewrite Hload.
Qed.

(** X11. On a non-empty history whose counter is inside the array, the line
    [history] prints the header and the (at most ten) latest entries, not
    counting itself, forks nothing, and is then recorded as the newest
    entry; the [args] array is left as it was. *)
Theorem history_lists_then_records_itself (os : os_answer) (st : shell) :
  well_formed st ->
  0 <= history_count st < MAX_HISTORY ->
  exists st',
    iteration os "history" st =
      (Print "dsh>"
         :: Print ("Command history:" ++ newline)
         :: (listed (slot_text st)
               <$> descending (history_count st)
                     (Z.to_nat (Z.min 10 (history_count st + 1)))),
       Ok st')
    /\ ~ spawns (iteration os "history" st)
    /\ need_fork st' = false
    /\ args st' = args st
    /\ history_count st' = history_count st + 1
    /\ history st' =
         <[Z.to_nat ((history_count st + 1) mod 100):=Text "history"]>
           (history st).
Proof.
  intros Hwf Hhc.
  set (st1 := set_need_fork false
                (set_should_wait true (set_need_fork true st))).
  assert (well_formed st1) as Hwf1
    by (revert Hwf; by apply well_formed_same).
  assert (next_count (history_count st) = history_count st + 1) as Hnext.
  { unfold next_count. destruct (Z.geb_spec (history_count st) MAX_HISTORY);
      [lia|done]. }
  assert (iteration os "history" st =
    (Print "dsh>"
       :: Print ("Command history:" ++ newline)
       :: (listed (slot_text st)
             <$> descending (history_count st)
                   (Z.to_nat (Z.min 10 (history_count st + 1)))),
     Ok (set_history
           (<[Z.to_nat ((history_count st + 1) mod 100):=Text "history"]>
              (history st))
           (set_history_count (history_count st + 1) st1)))) as Hrun.
  { unfold iteration. cbn [String.length Nat.eqb].
    change (string_compare "history" "exit") with false. cbv iota.
    unfold printf at 1, emit. rewrite (bind_ok_l [Print "dsh>"]).
    rewrite recall_passes_history, bind_ret_l.
    rewrite history_builtin_listing
      by (first [revert Hwf; by apply well_formed_same | done]).
    fold st1. rewrite bind_ok_l.
    rewrite (append_history_next _ st1 Hwf1), bind_ret_l.
    cbn [history_count history st1 set_need_fork set_should_wait].
    rewrite Hnext. cbn. by rewrite app_nil_r. }
  eexists. split; [exact Hrun|]. split; [|done].
  unfold spawns. rewrite Hrun. cbn [trace fst].
  intros [H|[H|H]]; [discriminate H..|].
  apply list_elem_of_In, list_elem_of_fmap in H as (i & H & _).
  discriminate H.
Qed.

Lemma history_lists_then_records_itself_witness :
  exists st',
    iteration in_parent "history" (state_after ["ls"; "pwd"]) =
      ([Print "dsh>"; Print ("Command history:" ++ newline);
        Print ("2 pwd" ++ newline); Print ("1 ls" ++ newline)], Ok st')
    /\ need_fork st' = false
    /\ history_count st' = 2
    /\ load (history st') 2 = Some (Text "history").
Proof.
  destruct (history_lists_then_records_itself in_parent
              (state_after ["ls"; "pwd"]))
    as (st' & Hrun & _ & Hfork & _ & Hhc & Hhist).
  - apply (main_well_formed ((fun l => (l, in_parent)) <$> ["ls"; "pwd"])).
    reflexivity.
  - vm_compute. split; [discriminate|reflexivity].
  - exists st'. split; [exact Hrun|]. split; [exact Hfork|].
    split; [exact Hhc|]. rewrite Hhist. reflexivity.
Defined.

(** ** What every processed line does to the history *)

Lemma result_bind {A B} (m : M A) (f : A -> M B) :
  result (bind m f) =
    match result m with
    | Ok a => result (f a)
    | Faulted => Faulted
    | Exited c => Exited c
    | Replaced => Replaced
    | Blocked => Blocked
    end.
Proof.
  destruct m as [t [a| | | |]]; simpl; try done. by destruct (f a).
Qed.

(** X12. Every iteration on a line other than the empty one and [exit]
    that gets back to the prompt has recorded exactly one entry: the counter
    moves to its next value (plus one, or 0 after it had reached 100) and
    the history array differs from the old one in that single slot. *)
Theorem each_line_is_recorded_once
    (os : os_answer) (line : string) (st st' : shell) :
  well_formed st ->
  line <> "" -> line <> "exit" ->
  result (iteration os line st) = Ok st' ->
  history_count st' = next_count (history_count st)
  /\ exists text,
       history st' =
         <[Z.to_nat (next_count (history_count st) mod 100):=Text text]>
           (history st).
Proof.
  intros Hwf Hline Hexit H. unfold iteration in H.
  apply bind_ok in H as (? & _ & H).
  assert (Nat.eqb (String.length line) 0 = false) as Hlen
    by (by destruct line).
  rewrite Hlen, string_compare_false in H by done.
  apply bind_ok in H as ([input st1] & Hrecall & H).
  apply recall_same_state in Hrecall as [Hargs1 [Hh1 Hc1]].
  apply bind_ok in H as (st2 & Hparse & H).
  apply builtin_or_parse_same_history in Hparse as [Hargs2 [Hh2 Hc2]].
  assert (well_formed st2) as Hwf2.
  { revert Hwf. apply well_formed_same; [|split]; cbn in *; congruence. }
  apply bind_ok in H as (st3 & Happend & H).
  set (text := default line input) in *.
  rewrite append_history_next in Happend by done.
  inversion Happend; subst st3. clear Happend.
  assert (st' = set_history
            (<[Z.to_nat (next_count (history_count st2) mod 100):=Text text]>
               (history st2))
            (set_history_count (next_count (history_count st2)) st2)) as ->.
  { destruct (need_fork _).
    - apply bind_ok in H as (? & _ & H). simpl in H. by inversion H.
    - simpl in H. by inversion H. }
  cbn in *. rewrite Hc2, Hc1, Hh2, Hh1. eauto.
Qed.

Lemma each_line_is_recorded_once_witness :
  history_count (state_after ["ls"; "!!"]) = 1
  /\ exists text,
       history (state_after ["ls"; "!!"]) =
         <[1%nat:=Text text]> (history (state_after ["ls"])).
Proof.
  apply (each_line_is_recorded_once in_parent "!!" (state_after ["ls"])).
  - apply (main_well_formed [("ls", in_parent)]). reflexivity.
  - discriminate.
  - discriminate.
  - reflexivity.
Defined.

(** ** The loop *)

(** X13. Blank lines change nothing but the number of prompts: the loop
    ends the same way, and in the same state, on the input with its blank
    lines removed. *)
Theorem blank_lines_are_skipped
    (inputs : list (string * os_answer)) (st : shell) :
  result (main_loop inputs st) =
    result (main_loop (List.filter (fun i => negb (blank i)) inputs) st).
Proof.
  revert st. induction inputs as [|[line os] inputs IH]; intros st; [done|].
  cbn [List.filter]. unfold blank at 1. cbn [fst].
  destruct (Nat.eqb (String.length line) 0) eqn:Hblank; cbn [negb].
  - rewrite <- IH. cbn [main_loop].
    destruct (should_run st =? 0) eqn:Hrun.
    + destruct inputs as [|[? ?] ?]; cbn [main_loop]; by rewrite Hrun.
    + unfold iteration. rewrite Hblank.
      unfold printf, emit. rewrite bind_ok_l. cbn [trace result fst snd].
      by rewrite result_bind.
  - cbn [main_loop]. destruct (should_run st =? 0); [done|].
    rewrite !result_bind.
    destruct (result (iteration os line st)); [apply IH|done..].
Qed.

(** X14. The line [exit] ends the loop: [main] returns 0 after the prompt,
    nothing is forked or recorded, and whatever lines follow are not
    read. *)
Theorem exit_ends_the_loop
    (os : os_answer) (later : list (string * os_answer)) (st : shell) :
  should_run st <> 0 ->
  main_loop (("exit", os) :: later) st = ([Print "dsh>"], Exited 0).
Proof.
  intros Hrun. cbn [main_loop].
  destruct (Z.eqb_spec (should_run st) 0); [done|].
  change (iteration os "exit" st)
    with ([Print "dsh>"], Ok (set_should_run 0 st)).
  rewrite bind_ok_l. by destruct later as [|[? ?] ?].
Qed.

Lemma exit_ends_the_loop_witness :
  main_loop [("exit", in_parent); ("ls", in_parent)] (state_after ["pwd"]) =
    ([Print "dsh>"], Exited 0).
Proof.
  apply (exit_ends_the_loop in_parent [("ls", in_parent)]
           (state_after ["pwd"])).
  vm_compute. discriminate.
Defined.

(** X15. In every state in which the shell is back at its prompt, whatever
    was typed before: both arrays still have their declared sizes, the
    latest-index counter is between -1 and 100, and every slot of the
    history array from 0 up to the counter (up to 99 at most) holds a
    recorded line. *)
Theorem prompt_states_are_well_formed
    (inputs : list (string * os_answer)) (st : shell) :
  result (main inputs) = Ok st ->
  length (args st) = 41%nat
  /\ length (history st) = 100%nat
  /\ -1 <= history_count st <= 100
  /\ forall i, 0 <= i <= history_count st -> i < 100 ->
       exists text, load (history st) i = Some (Text text).
Proof. intros H. exact (main_well_formed inputs st H). Qed.

Lemma prompt_states_are_well_formed_witness :
  length (args (state_after ["ls"; "!!"; "pwd"])) = 41%nat
  /\ length (history (state_after ["ls"; "!!"; "pwd"])) = 100%nat
  /\ -1 <= history_count (state_after ["ls"; "!!"; "pwd"]) <= 100
  /\ forall i, 0 <= i <= history_count (state_after ["ls"; "!!"; "pwd"]) ->
       i < 100 ->
       exists text,
         load (history (state_after ["ls"; "!!"; "pwd"])) i = Some (Text text).
Proof.
  apply (prompt_states_are_well_formed
           ((fun l => (l, in_parent)) <$> ["ls"; "!!"; "pwd"])).
  reflexivity.
Defined.

(** ** Recording and recalling *)

Lemma next_count_range (hc : Z) :
  -1 <= hc <= MAX_HISTORY -> 0 <= next_count hc <= MAX_HISTORY.
Proof.
  unfold next_count, MAX_HISTORY.
  destruct (Z.geb_spec hc 100); lia.
Qed.

(** X16. Unless the append is the one that takes the counter to 100, the
    line just recorded is the one [!!] resolves to: recording and then
    recalling the latest entry gives back the same text. *)
Theorem latest_is_the_line_just_recorded (line : string) (st : shell) :
  well_formed st ->
  history_count st <> MAX_HISTORY - 1 ->
  exists st',
    append_history (Some line) st = ([], Ok st')
    /\ recall "!!" st' = ([Print (line ++ newline)], Ok (Some line, st')).
Proof.
  intros Hwf Hnot. pose proof Hwf as (_ & Hsize & Hhc & _).
  pose proof (next_count_range _ Hhc) as Hnext.
  assert (next_count (history_count st) <> MAX_HISTORY) as Hinside.
  { unfold next_count, MAX_HISTORY in *.
    destruct (Z.geb_spec (history_count st) 100); lia. }
  eexists. split; [by apply append_history_next|].
  unfold recall. change (string_compare "!!" "!!") with true. cbv iota.
  cbn [history_count history set_history set_history_count].
  unfold MAX_HISTORY in *.
  destruct (Z.eqb_spec (next_count (history_count st)) (-1)); [lia|].
  cbn [negb]. unfold read_string.
  rewrite Z.mod_small by lia. rewrite load_insert by lia.
  rewrite Z2Nat.id, Z.eqb_refl by lia. reflexivity.
Qed.

Lemma latest_is_the_line_just_recorded_witness :
  exists st',
    append_history (Some "make test") (state_after ["ls"]) = ([], Ok st')
    /\ recall "!!" st' =
         ([Print ("make test" ++ newline)], Ok (Some "make test", st')).
Proof.
  apply (latest_is_the_line_just_recorded "make test" (state_after ["ls"])).
  - apply (main_well_formed [("ls", in_parent)]). reflexivity.
  - vm_compute. discriminate.
Defined.

(** X17. While the array is not overfull (at most 100 recorded lines since
    the start), [!n] resolves to the [n]-th line that was recorded, for
    every [n] from 1 to the number of lines. *)
Theorem bang_number_finds_the_nth_line
    (lines : list string) (n : Z) (text : string) :
  (length lines <= Z.to_nat MAX_HISTORY)%nat ->
  1 <= n ->
  lines !! Z.to_nat (n - 1) = Some text ->
  exists st,
    append_all lines initial = ([], Ok st)
    /\ recall (String "!" (print_int n)) st =
         ([Print (text ++ newline)], Ok (Some text, st)).
Proof.
  intros Hlen Hn Htext.
  destruct (append_all_fills lines Hlen) as (st & Hrun & Hhc & Hhist).
  exists st. split; [exact Hrun|].
  apply lookup_lt_Some in Htext as Hlt. unfold MAX_HISTORY in *.
  assert (INT_MIN < n <= INT_MAX) as Hrange
    by (unfold INT_MIN, INT_MAX; lia).
  destruct (print_int_head n) as (c & t & Hprint & Hc).
  apply recall_index_found.
  - rewrite Hprint. congruence.
  - rewrite recall_index_print_int by done. lia.
  - rewrite recall_index_print_int by done. unfold load.
    assert (in_bounds (history st) (n - 1) = true) as ->.
    { apply in_bounds_true. rewrite Hhist, length_app, length_fmap. lia. }
    rewrite Hhist, lookup_app_l by (rewrite length_fmap; lia).
    by rewrite list_lookup_fmap, Htext.
Qed.

Lemma bang_number_finds_the_nth_line_witness :
  exists st,
    append_all ["ls"; "pwd"; "date"] initial = ([], Ok st)
    /\ recall "!2" st = ([Print ("pwd" ++ newline)], Ok (Some "pwd", st)).
Proof.
  apply (bang_number_finds_the_nth_line ["ls"; "pwd"; "date"] 2 "pwd").
  - vm_compute. lia.
  - lia.
  - reflexivity.
Defined.

Lemma append_all_well_formed (lines : list string) (st : shell) :
  well_formed st ->
  exists st', append_all lines st = ([], Ok st') /\ well_formed st'.
Proof.
  revert st. induction lines as [|line lines IH]; intros st Hwf.
  - by exists st.
  - destruct (append_history_well_formed line st Hwf)
      as (st1 & Hrun & Hwf1 & _).
    destruct (IH st1 Hwf1) as (st' & Hrest & Hwf').
    exists st'. split; [|done].
    cbn [append_all]. by rewrite Hrun, bind_ret_l.
Qed.

(** X18. The numbering restarts on the append after the counter has reached
    100, that is on the 102nd recorded line: that line goes to slot 0, the
    counter becomes 0, and from then on every number from 2 upwards is
    reported as not in the history although slots 1 to 99 still hold the old
    lines. *)
Theorem numbering_restarts_on_line_102
    (lines : list string) (line101 line102 : string) :
  length lines = Z.to_nat MAX_HISTORY ->
  exists st,
    append_all (lines ++ [line101; line102]) initial = ([], Ok st)
    /\ history_count st = 0
    /\ load (history st) 0 = Some (Text line102)
    /\ (forall i text, 1 <= i -> lines !! Z.to_nat i = Some text ->
          load (history st) i = Some (Text text))
    /\ (forall n, 2 <= n <= INT_MAX ->
          recall_fails (String "!" (print_int n)) st).
Proof.
  intros Hlen. unfold MAX_HISTORY in *.
  destruct (append_all_fills lines) as (st0 & Hrun0 & Hhc0 & Hhist0);
    [unfold MAX_HISTORY; lia|].
  unfold MAX_HISTORY in *.
  rewrite Hlen, Nat.sub_diag, app_nil_r in Hhist0. rewrite Hlen in Hhc0.
  destruct (append_all_well_formed lines initial initial_well_formed)
    as (st0' & Hrun0' & Hwf0).
  rewrite Hrun0 in Hrun0'. inversion Hrun0'; subst st0'. clear Hrun0'.
  change (lines ++ [line101; line102])%list
    with (lines ++ ([line101] ++ [line102]))%list.
  rewrite app_assoc, !append_all_snoc, Hrun0, bind_ret_l.
  rewrite (append_history_next _ st0 Hwf0), bind_ret_l.
  rewrite append_history_next by (by apply next_count_well_formed).
  eexists. split; [reflexivity|].
  cbn [history history_count set_history set_history_count].
  rewrite Hhc0, Hhist0.
  change (next_count (Z.of_nat (Z.to_nat 100) - 1)) with 100.
  change (next_count 100) with 0.
  change (Z.to_nat (100 mod 100)) with 0%nat.
  change (Z.to_nat (0 mod 100)) with 0%nat.
  rewrite list_insert_insert_eq.
  split; [reflexivity|]. split; [|split].
  - rewrite load_insert by (rewrite length_fmap; lia). reflexivity.
  - intros i text Hi Htext. apply lookup_lt_Some in Htext as Hlt.
    rewrite load_insert by (rewrite length_fmap; lia).
    destruct (Z.eqb_spec i (Z.of_nat 0)); [lia|].
    unfold load.
    assert (in_bounds (Text <$> lines) i = true) as ->
      by (apply in_bounds_true; rewrite length_fmap; lia).
    by rewrite list_lookup_fmap, Htext.
  - intros n Hn.
    assert (INT_MIN < n <= INT_MAX) as Hrange by (unfold INT_MIN; lia).
    destruct (print_int_head n) as (c & t & Hprint & Hc).
    eexists _, _. apply recall_index_missing.
    + rewrite Hprint. congruence.
    + rewrite recall_index_print_int by done. cbn. lia.
Qed.

Lemma numbering_restarts_on_line_102_witness :
  exists st,
    append_all (replicate 100 "ls" ++ ["pwd"; "date"]) initial = ([], Ok st)
    /\ history_count st = 0
    /\ load (history st) 0 = Some (Text "date")
    /\ load (history st) 1 = Some (Text "ls")
    /\ recall_fails "!2" st.
Proof.
  destruct (numbering_restarts_on_line_102 (replicate 100 "ls") "pwd" "date")
    as (st & Hrun & Hhc & Hslot & Hold & Hfail); [reflexivity|].
  exists st. split; [exact Hrun|]. split; [exact Hhc|]. split; [exact Hslot|].
  split.
  - apply (Hold 1 "ls"); [lia|reflexivity].
  - apply (Hfail 2). unfold INT_MAX. lia.
Defined.

(** ** print_history on any array *)

Lemma print_history_loop_bound (count : nat) (h : list slot) (hc : Z) :
  (length (trace (print_history_loop count h hc)) <= count)%nat.
Proof.
  revert hc. induction count as [|count IH]; intros hc; [done|].
  cbn [print_history_loop]. destruct (hc >? -1); [|simpl; lia].
  unfold read_string.
  destruct (load h hc ≫= c_str) as [text|]; [|simpl; lia].
  unfold access, ret. rewrite bind_ret_l.
  unfold printf, emit. rewrite bind_ok_l. cbn [trace fst app length].
  specialize (IH (int_wrap (hc - 1))). lia.
Qed.

(** X19. Whatever the array and the counter passed to it, [print_history]
    prints the header and at most ten entries. *)
Theorem print_history_prints_at_most_ten (h : list slot) (hc : Z) :
  exists entries,
    trace (print_history h hc) =
      Print ("Command history:" ++ newline) :: entries
    /\ (length entries <= 10)%nat.
Proof.
  unfold print_history, printf, emit. rewrite bind_ok_l.
  eexists. split; [reflexivity|]. apply print_history_loop_bound.
Qed.

(** ** A line of spaces *)

Lemma tokens_only_delimiters (s : string) :
  only_delimiters s = true -> tokens s = [].
Proof.
  intros H. rewrite tokens_unfold. unfold strtok.
  assert (skip_delimiters s = "") as ->; [|done].
  induction s as [|c s IH]; [done|]. cbn in *.
  apply andb_true_iff in H as [-> H]. by apply IH.
Qed.

(** X21. A line made only of spaces is not treated as blank: it is recorded
    in the history and a child is forked for it, in which [execvp] is called
    with a null program name and an empty argument vector. *)
Theorem spaces_only_line_is_executed
    (os : os_answer) (line : string) (st : shell) :
  well_formed st ->
  ordinary line = true ->
  only_delimiters line = true ->
  fork_ret os = 0 ->
  exists st',
    iteration os line st =
      ([Print "dsh>"; Fork; Exec []],
       match execvp_ret os with
       | None => Replaced
       | Some _ => Ok st'
       end)
    /\ history st' =
         <[Z.to_nat (next_count (history_count st) mod 100):=Text line]>
           (history st).
Proof.
  intros Hwf Hline Hspaces Hfork.
  destruct (iteration_ordinary os line st Hwf Hline)
    as (st' & Hrun & Hargv & _ & _ & _ & _ & Hhist & _).
  unfold argv_for in Hargv. rewrite tokens_only_delimiters in Hargv by done.
  exists st'. split; [|done].
  rewrite Hrun. unfold execute. rewrite Hfork, Hargv.
  destruct (execvp_ret os) as [r|]; [|reflexivity].
  cbn. by rewrite c_not_never_negative.
Qed.

Lemma spaces_only_line_is_executed_witness :
  exists st',
    iteration (in_child_exec_failed (-1)) "   " initial =
      ([Print "dsh>"; Fork; Exec []], Ok st')
    /\ history st' = <[0%nat:=Text "   "]> (history initial).
Proof.
  apply (spaces_only_line_is_executed (in_child_exec_failed (-1)) "   "
           initial).
  - exact initial_well_formed.
  - reflexivity.
  - reflexivity.
  - reflexivity.
Defined.

(** ** Where [need_fork] is cleared *)

Lemma need_fork_cleared_only_witness :
  (("!!" : string) = "!!" /\ history_count initial = -1)
  \/ (default ("!!" : string) (Some ("!!" : string)) = "history"
      /\ history_count initial <> -1).
Proof.
  apply (need_fork_cleared_only "!!" (Some "!!") initial
           (set_need_fork false initial)
           (set_should_wait true
              (set_args (<[1%nat:=Null]> (<[0%nat:=Text "!!"]> (args initial)))
                 (set_need_fork false initial))));
    reflexivity.
Defined.

(** ** Display numbers and recall numbers agree *)

(** X22. In every state the shell can be in at its prompt, the number under
    which [history] would list slot [i], that is [i + 1], is the number that
    recalls it: [!(i+1)] echoes and resolves to the text recorded in slot
    [i], for every slot up to the latest index. *)
Theorem listed_number_recalls_listed_text
    (inputs : list (string * os_answer)) (st : shell) (i : Z) :
  result (main inputs) = Ok st ->
  0 <= i <= history_count st ->
  i < MAX_HISTORY ->
  recall (String "!" (print_int (i + 1))) st =
    ([Print (slot_text st i ++ newline)], Ok (Some (slot_text st i), st)).
Proof.
  intros Hmain Hi Hinside.
  apply main_well_formed in Hmain as (_ & _ & Hhc & Hslots).
  destruct (Hslots i) as [text Hload]; [done..|].
  unfold MAX_HISTORY in *.
  assert (INT_MIN < i + 1 <= INT_MAX) as Hrange
    by (unfold INT_MIN, INT_MAX; lia).
  destruct (print_int_head (i + 1)) as (c & t & Hprint & Hc).
  unfold slot_text. rewrite Hload. cbn [mbind option_bind c_str default].
  apply recall_index_found.
  - rewrite Hprint. congruence.
  - rewrite recall_index_print_int by done. lia.
  - rewrite recall_index_print_int by done.
    by replace (i + 1 - 1) with i by lia.
Qed.

Lemma listed_number_recalls_listed_text_witness :
  recall "!2" (state_after ["ls"; "pwd"; "date"]) =
    ([Print ("pwd" ++ newline)],
     Ok (Some "pwd", state_after ["ls"; "pwd"; "date"])).
Proof.
  apply (listed_number_recalls_listed_text
           ((fun l => (l, in_parent)) <$> ["ls"; "pwd"; "date"])
           (state_after ["ls"; "pwd"; "date"]) 1).
  - reflexivity.
  - vm_compute. split; discriminate.
  - reflexivity.
Defined.
